(** * Cinematic Storyboard: request orchestration of [geminiService]

    A shallow embedding of the service layer of the storyboard application
    (credential resolution, the deadline wrapper, the access-error classifier,
    the tiered fallback executor, the key validator, the three plan calls and
    the image render call) together with the properties its specification
    states about them.

    Conventions of the embedding:
    - a JavaScript string is a [string]; a non-ASCII text is the byte
      sequence of its UTF-8 encoding, on which substring search agrees with
      the search on UTF-16 code units;
    - an optional value ([undefined] or a value) is an [option];
    - a thrown value is a [Thrown]: [undefined] or an error object;
    - a function that may throw returns a [Result];
    - code with effects (network calls, console output) is a function from a
      state to a [Result] and a new state. *)

From Stdlib Require Import Bool Arith NArith Lia List Ascii String.
From Stdlib Require Decimal DecimalString DecimalNat DecimalFacts.
Import ListNotations.

Open Scope list_scope.
Open Scope string_scope.

Set Implicit Arguments.
Set Warnings "-register-all".

(** ** JavaScript primitives used by the service *)

Module Js.

(** [prefix.startsWith]: [p] is an initial segment of [s]. *)
Fixpoint startsWith (p s : string) : bool :=
  match p, s with
  | EmptyString, _ => true
  | String _ _, EmptyString => false
  | String a p', String b s' => Ascii.eqb a b && startsWith p' s'
  end.

(** [hay.includes(needle)]: [needle] occurs in [hay] as a contiguous run. *)
Fixpoint includes (needle hay : string) : bool :=
  startsWith needle hay ||
  match hay with
  | EmptyString => false
  | String _ rest => includes needle rest
  end.

(** Lower-case mapping of one character: the letters [A]..[Z] go to
    [a]..[z].  A byte of value 128 or more, part of a character outside
    ASCII, is left as it is.  JavaScript also maps letters outside ASCII;
    their images lie outside ASCII again, but for U+212A, which goes to [k],
    and U+0130, which goes to [i] followed by U+0307, and neither can
    complete one of the ASCII texts the service searches for: none has a
    [k], and none has its [i] followed by a character outside ASCII. *)
Definition lowerChar (c : ascii) : ascii :=
  let n := nat_of_ascii c in
  if ((65 <=? n) && (n <=? 90))%nat then ascii_of_nat (n + 32) else c.

(** [s.toLowerCase()]. *)
Fixpoint toLowerCase (s : string) : string :=
  match s with
  | EmptyString => EmptyString
  | String c rest => String (lowerChar c) (toLowerCase rest)
  end.

(** Truthiness of an optional string: [undefined] and [""] are falsy. *)
Definition truthy (v : option string) : bool :=
  match v with
  | None => false
  | Some s => negb (s =? "")
  end.

(** [a || b] on optional strings: [a] when it is truthy, otherwise [b]. *)
Definition or (a b : option string) : option string :=
  if truthy a then a else b.

(** [a || d] where [d] is a string literal. *)
Definition orDefault (a : option string) (d : string) : string :=
  match a with
  | Some s => if s =? "" then d else s
  | None => d
  end.

(** The pieces of [s.split(sep)] for a one-character separator. *)
Fixpoint split (sep : ascii) (s : string) : list string :=
  match s with
  | EmptyString => [EmptyString]
  | String c rest =>
      if Ascii.eqb c sep then EmptyString :: split sep rest
      else match split sep rest with
           | piece :: pieces => String c piece :: pieces
           | [] => [String c EmptyString]
           end
  end.

End Js.

(** ** Thrown values *)

(** An error object: what [new Error(message)] builds, or an error of the
    client library, which adds a status code.  The [message] property of an
    arbitrary thrown object can be missing. *)
Record ErrorObj : Type := mkErrorObj {
  err_name : string;
  err_message : option string;
  err_status : option N
}.

(** [new Error(message)]. *)
Definition Error (message : string) : ErrorObj :=
  {| err_name := "Error"; err_message := Some message; err_status := None |}.

(** The [TypeError] of reading a property of [undefined]. *)
Definition TypeError_undefined_message : ErrorObj :=
  {| err_name := "TypeError";
     err_message := Some "Cannot read properties of undefined (reading 'message')";
     err_status := None |}.

(** A caught value has type [any]. *)
Inductive Thrown : Type :=
| ThrownUndefined
| ThrownObj (e : ErrorObj).

(** [error?.message] *)
Definition optMessage (error : Thrown) : option string :=
  match error with
  | ThrownUndefined => None
  | ThrownObj e => err_message e
  end.

(** [String(error?.message || "")] *)
Definition messageText (error : Thrown) : string :=
  Js.orDefault (optMessage error) "".

Inductive Result (T : Type) : Type :=
| Ok (value : T)
| Throw (error : Thrown).

Arguments Ok {T} value.
Arguments Throw {T} error.

(** ** Constants of the service *)

Definition REQUEST_TIMEOUT_MS : N := 45000.
Definition VALIDATION_TIMEOUT_MS : N := 15000.

Definition PLAN_MODELS : list string := ["gemini-2.5-pro"; "gemini-2.5-flash"].

Module IMAGE_MODELS.
Definition pro : string := "gemini-3-pro-image-preview".
Definition fallback : string := "gemini-2.5-flash-image".
End IMAGE_MODELS.

(** ** The access-error classifier *)

Definition isModelAccessError (error : Thrown) : bool :=
  let message := messageText error in
  (message =? "REQUEST_TIMEOUT") ||
  Js.includes "Requested entity was not found" message ||
  Js.includes "not found" (Js.toLowerCase message) ||
  Js.includes "permission" (Js.toLowerCase message) ||
  Js.includes "denied" (Js.toLowerCase message) ||
  Js.includes "not authorized" (Js.toLowerCase message).

(** *** The classifier as the specification words it *)





(** ** Promises and the deadline wrapper *)

(** A pending operation, described by the moment it settles, in milliseconds
    after it was started, and by what it settles with.  [Pending] is the
    operation that never settles. *)
Inductive Async (T : Type) : Type :=
| Settles (at_ms : N) (outcome : Result T)
| Pending.

Arguments Pending {T}.

(** [new Error("REQUEST_TIMEOUT")], as thrown. *)
Definition REQUEST_TIMEOUT : Thrown := ThrownObj (Error "REQUEST_TIMEOUT").

(** *** The callbacks of [withTimeout]

    [withTimeout] builds a promise, arms a timer and registers a [then] and a
    [catch] callback on the operation.  The three callbacks are the events of
    a small machine whose state is the promise built and the timer. *)
Inductive Event (T : Type) : Type :=
| TimerFires
| OpFulfils (value : T)
| OpRejects (err : Thrown).

Arguments TimerFires {T}.
Arguments OpRejects {T} err.

Record Wrapper (T : Type) : Type := mkWrapper {
  settled : option (Result T);
  timerArmed : bool
}.

(** After the executor ran: nothing settled, the timer armed. *)
Definition wrapperStart {T : Type} : Wrapper T :=
  {| settled := None; timerArmed := true |}.

(** [resolve] and [reject] of a promise act once: a settled promise stays. *)
Definition settle {T : Type} (w : Wrapper T) (r : Result T) : option (Result T) :=
  match settled w with
  | None => Some r
  | Some earlier => Some earlier
  end.

Definition wrapperStep {T : Type} (w : Wrapper T) (ev : Event T) : Wrapper T :=
  match ev with
  | TimerFires =>
      (* () => reject(new Error("REQUEST_TIMEOUT")), unless cleared *)
      if timerArmed w
      then {| settled := settle w (Throw REQUEST_TIMEOUT); timerArmed := false |}
      else w
  | OpFulfils value =>
      (* clearTimeout(timer); resolve(value) *)
      {| settled := settle w (Ok value); timerArmed := false |}
  | OpRejects err =>
      (* clearTimeout(timer); reject(err) *)
      {| settled := settle w (Throw err); timerArmed := false |}
  end.

Definition runWrapper {T : Type} (events : list (Event T)) : Wrapper T :=
  fold_left wrapperStep events wrapperStart.

Definition opEvent {T : Type} (r : Result T) : Event T :=
  match r with
  | Ok value => OpFulfils value
  | Throw err => OpRejects err
  end.

(** The delay that [setTimeout(callback, ms)] keeps.  The program runs in a
    browser, where the delay is a signed integer of 32 bits: the HTML
    Standard converts [ms] to one, and takes a negative delay for 0.  A
    deadline below 2^31 ms is kept as it is; one of 2^31 ms is over at once.
    (Node.js takes 1 ms for a delay of 0 and for a delay above 2^31 - 1:
    there too a deadline of 2^31 ms is over at once.) *)
Definition timerDelay (ms : N) : N :=
  let wrapped := (ms mod 4294967296)%N in
  if (wrapped <? 2147483648)%N then wrapped else 0%N.


(** What [await withTimeout(promise, ms)] evaluates to. *)
Definition withTimeout {T : Type} (promise : Async T) (ms : N) : Result T :=
  match promise with
  | Settles t r => if (t <=? timerDelay ms)%N then r else Throw REQUEST_TIMEOUT
  | Pending => Throw REQUEST_TIMEOUT
  end.

(** A deadline that the timer keeps as it is, in a browser and in Node.js
    alike: from 1 ms to 2^31 - 1 ms. *)
Definition keptByTimer (ms : N) : Prop := (1 <= ms /\ ms < 2147483648)%N.

(** The operation settles with [r] within the deadline: before it, or in the
    millisecond of the deadline at the latest. *)
Definition settlesWithin {T : Type} (promise : Async T) (ms : N) (r : Result T) : Prop :=
  exists t, promise = Settles t r /\ (t <= ms)%N.

(** The operation does not settle within the deadline: it settles after it,
    or never. *)
Definition expires {T : Type} (promise : Async T) (ms : N) : Prop :=
  match promise with
  | Settles t _ => (ms < t)%N
  | Pending => True
  end.


(** ** A monad for code that throws and has effects *)

Definition M (S A : Type) : Type := S -> Result A * S.

Definition ret {S A : Type} (a : A) : M S A := fun s => (Ok a, s).

Definition throw {S A : Type} (e : Thrown) : M S A := fun s => (Throw e, s).

Definition lift {S A : Type} (r : Result A) : M S A := fun s => (r, s).

Definition bind {S A B : Type} (m : M S A) (k : A -> M S B) : M S B :=
  fun s =>
    match m s with
    | (Ok a, s') => k a s'
    | (Throw e, s') => (Throw e, s')
    end.

(** [try { body } catch (error) { handler }]. *)
Definition tryCatch {S A : Type} (body : M S A) (handler : Thrown -> M S A) : M S A :=
  fun s =>
    match body s with
    | (Ok a, s') => (Ok a, s')
    | (Throw e, s') => handler e s'
    end.

Declare Scope js_scope.
Delimit Scope js_scope with js.
Notation "x <- m ;; k" := (bind m (fun x => k))
  (at level 100, m at next level, right associativity) : js_scope.
Notation "'await' r" := (lift r) (at level 10, r at level 9) : js_scope.
Open Scope js_scope.

(** ** The tiered fallback executor *)

(** The client object; it only carries the key it was built with. *)
Record GoogleGenAI : Type := newGoogleGenAI { client_apiKey : option string }.

(** The [for] loop of [generateWithFallback], with [lastError] as it stands
    on entry. *)
Fixpoint tryModels {S T : Type} (requestFactory : string -> M S (Async T))
    (models : list string) (lastError : Thrown) : M S T :=
  match models with
  | [] => throw lastError
  | model :: rest =>
      tryCatch
        (promise <- requestFactory model ;;
         await (withTimeout promise REQUEST_TIMEOUT_MS))
        (fun error =>
           if negb (isModelAccessError error) then throw error
           else tryModels requestFactory rest error)
  end.

Definition generateWithFallback {S T : Type} (ai : GoogleGenAI)
    (models : list string) (requestFactory : string -> M S (Async T)) : M S T :=
  tryModels requestFactory models ThrownUndefined.

(** *** Observing the attempts

    A request factory that also records, for each call, the model it was
    called with and what it returned.  The record is the only difference
    from the factory it wraps. *)
Definition Attempt (T : Type) : Type := (string * Result (Async T))%type.

Definition traced {S T : Type} (requestFactory : string -> M S (Async T))
    (model : string) : M (S * list (Attempt T)) (Async T) :=
  fun st =>
    let (r, s') := requestFactory model (fst st) in
    (r, (s', (snd st ++ [(model, r)])%list)).

(** How an attempt ends once the executor has put its deadline on it. *)
Definition attemptOutcome {T : Type} (r : Result (Async T)) : Result T :=
  match r with
  | Ok promise => withTimeout promise REQUEST_TIMEOUT_MS
  | Throw e => Throw e
  end.

(** ** Requests and responses of the generative service *)

Inductive Schema : Type :=
| SchemaString (description : option string)
| SchemaArray (items : Schema)
| SchemaObject (properties : list (string * Schema)) (required : list string).

Record ImageConfig : Type := {
  image_aspectRatio : string;
  image_imageSize : option string
}.

Record GenerationConfig : Type := {
  maxOutputTokens : option N;
  responseMimeType : option string;
  responseSchema : option Schema;
  imageConfig : option ImageConfig
}.

Inductive ContentPart : Type :=
| InlineDataPart (mimeType : string) (data : option string)
| TextPart (text : string).

Inductive Contents : Type :=
| ContentsText (text : string)
| ContentsParts (parts : list ContentPart).

Record GenerateContentParameters : Type := {
  model : string;
  contents : Contents;
  config : GenerationConfig
}.

Record InlineData : Type := {
  inline_mimeType : option string;
  inline_data : option string
}.

Record Part : Type := {
  part_inlineData : option InlineData;
  part_text : option string
}.

Record Candidate : Type := { candidate_parts : option (option (list Part)) }.

Record GenerateContentResponse : Type := {
  response_text : option string;
  response_candidates : option (list Candidate)
}.

(** A parsed JSON text; a number is kept as its literal. *)
Inductive Json : Type :=
| JNull
| JBool (b : bool)
| JNumber (literal : string)
| JString (s : string)
| JArray (items : list Json)
| JObject (members : list (string * Json)).

(** One call that left for the service: the key of the client and the
    request. *)
Record Call : Type := {
  call_apiKey : option string;
  call_request : GenerateContentParameters
}.

(** What lies outside the service layer: the two environment variables, the
    remote service, whose answer to a call may depend on the calls made
    before, and [JSON.parse]. *)
Record Platform : Type := {
  env_API_KEY : option string;
  env_GEMINI_API_KEY : option string;
  service : list Call -> Call -> Async GenerateContentResponse;
  JSON_parse : string -> Result Json
}.

(** What the service layer changes: the calls sent, oldest first, and the
    lines written with [console.error]. *)
Record World : Type := {
  sent : list Call;
  consoleErrors : list (string * Thrown)
}.

Definition emptyWorld : World := {| sent := []; consoleErrors := [] |}.

(** [ai.models.generateContent(params)]: the call leaves, a promise comes
    back. *)
Definition generateContent (P : Platform) (ai : GoogleGenAI)
    (params : GenerateContentParameters) : M World (Async GenerateContentResponse) :=
  fun w =>
    let call := {| call_apiKey := client_apiKey ai; call_request := params |} in
    (Ok (service P (sent w) call),
     {| sent := (sent w ++ [call])%list; consoleErrors := consoleErrors w |}).

Definition console_error (label : string) (error : Thrown) : M World unit :=
  fun w =>
    (Ok tt, {| sent := sent w; consoleErrors := (consoleErrors w ++ [(label, error)])%list |}).

(** ** Credentials *)

Definition resolveApiKey (P : Platform) (apiKey : option string) : option string :=
  Js.or (Js.or apiKey (env_API_KEY P)) (env_GEMINI_API_KEY P).

Definition getAI (P : Platform) (apiKey : option string) : Result GoogleGenAI :=
  let resolvedKey := resolveApiKey P apiKey in
  if negb (Js.truthy resolvedKey) then Throw (ThrownObj (Error "API_KEY_MISSING"))
  else Ok (newGoogleGenAI resolvedKey).

(** ** The key validator *)

Record Validation : Type := { valid : bool; proAvailable : bool }.

Definition noConfig : GenerationConfig :=
  {| maxOutputTokens := None; responseMimeType := None;
     responseSchema := None; imageConfig := None |}.

(** The one-token probe request. *)
Definition probe (modelName : string) : GenerateContentParameters :=
  {| model := modelName;
     contents := ContentsText "test";
     config := {| maxOutputTokens := Some 1%N; responseMimeType := None;
                  responseSchema := None; imageConfig := None |} |}.

Definition validateApiKey (P : Platform) (apiKey : option string) : M World Validation :=
  let resolvedKey := resolveApiKey P apiKey in
  if negb (Js.truthy resolvedKey) then ret {| valid := false; proAvailable := false |}
  else
    tryCatch
      (let ai := newGoogleGenAI resolvedKey in
       returned <-
         tryCatch
           (promise <- generateContent P ai (probe (nth 0 PLAN_MODELS "")) ;;
            _ <- await (withTimeout promise VALIDATION_TIMEOUT_MS) ;;
            ret (Some {| valid := true; proAvailable := true |}))
           (fun error =>
              if negb (isModelAccessError error) then throw error else ret None) ;;
       match returned with
       | Some result => ret result
       | None =>
           promise <- generateContent P ai (probe (nth 1 PLAN_MODELS "")) ;;
           _ <- await (withTimeout promise VALIDATION_TIMEOUT_MS) ;;
           ret {| valid := true; proAvailable := false |}
       end)
      (fun error =>
         _ <- console_error "API Key Validation Error:" error ;;
         ret {| valid := false; proAvailable := false |}).

(** ** The plan calls *)

Inductive AppMode : Type := home | shorts | whatsNext | zooms.
Inductive ZoomDirection : Type := ZoomIn | ZoomOut.

Record Angle : Type := {
  angle_name : string;
  angle_prompt : string;
  angle_promptKo : string
}.

Record StoryboardPlan : Type := {
  subject : string;
  style : string;
  resolution : string;
  aspectRatio : string;
  angles : list Angle
}.

(** The instruction texts, character for character. *)
Module Prompts.

Definition nl : string := String (ascii_of_nat 10) EmptyString.
Definition dq : string := String (ascii_of_nat 34) EmptyString.

Definition categoryPrompt : string :=
  nl ++
  "    이미지를 보고 이후에 이어질 수 있는 스토리 카테고리를 5개 추천해주세요." ++ nl ++
  "    JSON 배열 형태 [" ++ dq ++ "카테고리1" ++ dq ++ ", ...] 로만 응답하세요." ++ nl ++
  "  ".

Definition commonInstruction : string :=
  nl ++
  "    **CRITICAL CHARACTER CONSISTENCY RULE:**" ++ nl ++
  "    1. Analyze the person in the source image with extreme precision: " ++ nl ++
  "       - Ethnicity: (e.g., East Asian, Caucasian, etc.)" ++ nl ++
  "       - Facial Features: (e.g., eye shape, nose, smile, facial structure)" ++ nl ++
  "       - Hairstyle: (e.g., long black hair with bangs, bob, etc.)" ++ nl ++
  "       - Clothing: (e.g., white linen shirt, specific patterns)" ++ nl ++
  "    2. In the 'subject' field, write a definitive physical description that locks this identity." ++ nl ++
  "    3. Every shot prompt must start with: " ++ dq ++ "High-quality realistic photo of the EXACT same person from the reference image, maintaining their identical face, hair, and outfit: " ++ dq ++ nl ++
  "  ".

Definition shortsPrompt : string :=
  nl ++
  "    " ++ commonInstruction ++ nl ++
  "    당신은 전문적인 '시네마틱 스토리보드 아티스트'입니다." ++ nl ++
  "    이미지를 분석하여 9가지 시네마틱 앵글을 설계하세요." ++ nl ++
  "    모든 prompt는 영어로, promptKo는 한국어로 작성하세요." ++ nl ++
  "  ".

Definition whatsNextPrompt (category : option string) : string :=
  nl ++
  "    " ++ commonInstruction ++ nl ++
  "    당신은 전문적인 '비주얼 스토리텔러'입니다." ++ nl ++
  "    주제: [" ++ Js.orDefault category "일반적인 서사" ++ "]" ++ nl ++
  "    9가지 연속된 스토리 장면을 구상하세요. " ++ nl ++
  "    인물의 일관성이 절대적으로 유지되어야 합니다. 외국인이나 다른 인물로 바뀌지 않도록 주의하세요." ++ nl ++
  "    모든 prompt는 상세한 영어로 작성하고, promptKo는 한국어로 작성하세요." ++ nl ++
  "  ".

Definition zoomsPrompt (zoomDirection : ZoomDirection) : string :=
  nl ++
  "    " ++ commonInstruction ++ nl ++
  "    당신은 전문적인 '시네마틱 비주얼 이펙트(VFX) 감독'입니다." ++ nl ++
  "    줌 모드: [" ++ (match zoomDirection with ZoomIn => "확대(Zoom-in)" | ZoomOut => "축소(Zoom-out)" end) ++ "]" ++ nl ++
  "    9단계 줌 시퀀스를 설계하세요. 모든 단계에서 인물의 특징이 완벽히 유지되어야 합니다." ++ nl ++
  "  ".

Definition editPrompt (plan : StoryboardPlan) : string :=
  nl ++
  "    다음 수정 사항을 바탕으로 9개의 장면 프롬프트를 다시 작성하세요." ++ nl ++
  "    인물의 일관성이 최우선입니다." ++ nl ++
  "    [Identity Lock] " ++ subject plan ++ nl ++
  "    [Visual Style] " ++ style plan ++ nl ++
  "    " ++ nl ++
  "    규칙: 모든 프롬프트는 " ++ dq ++ "Based on the reference photo, maintaining the exact same identity, face, and attire: " ++ dq ++ "로 시작해야 합니다." ++ nl ++
  "  ".

Definition shotText (prompt : string) : string :=
  nl ++
  "          STRICT IDENTITY MATCH REQUIRED: " ++ nl ++
  "          Look at the person in the provided image. Replicate their EXACT facial features, hair, and clothing in a new scene." ++ nl ++
  "          " ++ nl ++
  "          SCENE DESCRIPTION: " ++ prompt ++ nl ++
  "          " ++ nl ++
  "          STYLE: Cinematic, professional photography, high-end resolution, masterwork quality." ++ nl ++
  "          No variations in the person's identity allowed." ++ nl ++
  "        ".

End Prompts.

Definition jsonConfig (schema : Schema) : GenerationConfig :=
  {| maxOutputTokens := None;
     responseMimeType := Some "application/json";
     responseSchema := Some schema;
     imageConfig := None |}.

(** [base64Image.split(',')[1]] *)
Definition afterComma (base64Image : string) : option string :=
  nth_error (Js.split "," base64Image) 1.

Definition categoriesRequest (base64Image model : string) : GenerateContentParameters :=
  {| model := model;
     contents := ContentsParts
       [InlineDataPart "image/jpeg" (afterComma base64Image);
        TextPart Prompts.categoryPrompt];
     config := jsonConfig (SchemaArray (SchemaString None)) |}.

Definition defaultCategories : list string :=
  ["액션"; "드라마"; "SF"; "판타지"; "일상"].

Definition suggestNarrativeCategories (P : Platform) (base64Image : string)
    (apiKey : option string) : M World Json :=
  ai <- lift (getAI P apiKey) ;;
  response <- generateWithFallback ai PLAN_MODELS
                (fun model => generateContent P ai (categoriesRequest base64Image model)) ;;
  match response_text response with
  | None => ret (JArray (map JString defaultCategories))
  | Some text =>
      if text =? "" then ret (JArray (map JString defaultCategories))
      else lift (JSON_parse P text)
  end.

Definition planSchema (subjectNote styleNote : option string) : Schema :=
  SchemaObject
    [("subject", SchemaString subjectNote);
     ("style", SchemaString styleNote);
     ("resolution", SchemaString None);
     ("aspectRatio", SchemaString None);
     ("angles",
      SchemaArray
        (SchemaObject
           [("name", SchemaString None);
            ("prompt", SchemaString None);
            ("promptKo", SchemaString None)]
           ["name"; "prompt"; "promptKo"]))]
    ["subject"; "style"; "resolution"; "aspectRatio"; "angles"].

Definition systemInstruction (mode : AppMode) (category : option string)
    (zoomDirection : ZoomDirection) : string :=
  match mode with
  | whatsNext => Prompts.whatsNextPrompt category
  | zooms => Prompts.zoomsPrompt zoomDirection
  | _ => Prompts.shortsPrompt
  end.

Definition planRequest (base64Image : string) (mode : AppMode)
    (category : option string) (zoomDirection : ZoomDirection)
    (model : string) : GenerateContentParameters :=
  {| model := model;
     contents := ContentsParts
       [InlineDataPart "image/jpeg" (afterComma base64Image);
        TextPart (systemInstruction mode category zoomDirection)];
     config := jsonConfig
       (planSchema (Some "상세한 캐릭터 외모 묘사 (Identity Lock)")
                   (Some "전체적인 조명 및 시네마틱 스타일")) |}.

Definition analyzeImageToStoryboardPlan (P : Platform) (base64Image : string)
    (mode : AppMode) (category : option string) (zoomDirection : ZoomDirection)
    (apiKey : option string) : M World Json :=
  ai <- lift (getAI P apiKey) ;;
  response <- generateWithFallback ai PLAN_MODELS
                (fun model =>
                   generateContent P ai
                     (planRequest base64Image mode category zoomDirection model)) ;;
  match response_text response with
  | None => throw (ThrownObj (Error "AI 응답 실패"))
  | Some text =>
      if text =? "" then throw (ThrownObj (Error "AI 응답 실패"))
      else lift (JSON_parse P text)
  end.

Definition editRequest (plan : StoryboardPlan) (model : string) : GenerateContentParameters :=
  {| model := model;
     contents := ContentsText (Prompts.editPrompt plan);
     config := jsonConfig (planSchema None None) |}.

Definition updatePromptsWithEdits (P : Platform) (plan : StoryboardPlan)
    (mode : AppMode) (apiKey : option string) : M World Json :=
  ai <- lift (getAI P apiKey) ;;
  response <- generateWithFallback ai PLAN_MODELS
                (fun model => generateContent P ai (editRequest plan model)) ;;
  match response_text response with
  | None => throw (ThrownObj (Error "업데이트 실패"))
  | Some text =>
      if text =? "" then throw (ThrownObj (Error "업데이트 실패"))
      else lift (JSON_parse P text)
  end.

(** ** The image render call *)

Record ShotConfig : Type := {
  shot_aspectRatio : string;
  shot_resolution : string
}.

(** [response.candidates?.[0]?.content?.parts || []]; the two options of a
    candidate are its [content] and the [parts] of that content. *)
Definition firstCandidateParts (response : GenerateContentResponse) : list Part :=
  match response_candidates response with
  | Some (candidate :: _) =>
      match candidate_parts candidate with
      | Some (Some parts) => parts
      | _ => []
      end
  | _ => []
  end.

(** A value spliced into a template literal. *)
Definition spliced (v : option string) : string :=
  match v with
  | Some s => s
  | None => "undefined"
  end.

(** The scan of the parts: the data URL of the first part that carries
    inline data, if there is one. *)
Fixpoint firstInlineImage (parts : list Part) : option string :=
  match parts with
  | [] => None
  | part :: rest =>
      match part_inlineData part with
      | Some inlineData => Some ("data:image/png;base64," ++ spliced (inline_data inlineData))
      | None => firstInlineImage rest
      end
  end.

(** [error.message]: reading a property of [undefined] throws. *)
Definition readMessage (error : Thrown) : Result (option string) :=
  match error with
  | ThrownUndefined => Throw (ThrownObj TypeError_undefined_message)
  | ThrownObj e => Ok (err_message e)
  end.

Definition shotContents (prompt originalImageBase64 : string) : Contents :=
  ContentsParts
    [InlineDataPart "image/jpeg" (afterComma originalImageBase64);
     TextPart (Prompts.shotText prompt)].

Definition imageOnly (ic : ImageConfig) : GenerationConfig :=
  {| maxOutputTokens := None; responseMimeType := None;
     responseSchema := None; imageConfig := Some ic |}.

(** The request of the first attempt. *)
Definition shotRequest (prompt originalImageBase64 : string) (isPro : bool)
    (config : ShotConfig) : GenerateContentParameters :=
  {| model := if isPro then IMAGE_MODELS.pro else IMAGE_MODELS.fallback;
     contents := shotContents prompt originalImageBase64;
     config := imageOnly
       {| image_aspectRatio := Js.orDefault (Some (shot_aspectRatio config)) "16:9";
          image_imageSize :=
            if isPro then Some (Js.orDefault (Some (shot_resolution config)) "1K")
            else None |} |}.

(** The request of the second attempt, made in the [catch] block. *)
Definition shotFallbackRequest (prompt originalImageBase64 : string)
    (config : ShotConfig) : GenerateContentParameters :=
  {| model := IMAGE_MODELS.fallback;
     contents := shotContents prompt originalImageBase64;
     config := imageOnly
       {| image_aspectRatio := Js.orDefault (Some (shot_aspectRatio config)) "16:9";
          image_imageSize := None |} |}.

Definition generateStoryShot (P : Platform) (prompt originalImageBase64 : string)
    (isPro : bool) (config : ShotConfig) (apiKey : option string) : M World string :=
  let resolvedKey := resolveApiKey P apiKey in
  if negb (Js.truthy resolvedKey) then throw (ThrownObj (Error "API_KEY_MISSING"))
  else
    let ai := newGoogleGenAI resolvedKey in
    returned <-
      tryCatch
        (promise <- generateContent P ai
                      (shotRequest prompt originalImageBase64 isPro config) ;;
         response <- await (withTimeout promise REQUEST_TIMEOUT_MS) ;;
         ret (firstInlineImage (firstCandidateParts response)))
        (fun error =>
           demote <-
             (if isPro then
                if isModelAccessError error then ret true
                else message <- lift (readMessage error) ;;
                     ret (match message with
                          | Some m => m =? "REQUEST_TIMEOUT"
                          | None => false
                          end)
              else ret false) ;;
           fromFallback <-
             (if demote : bool then
                promise <- generateContent P ai
                             (shotFallbackRequest prompt originalImageBase64 config) ;;
                fallbackResponse <- await (withTimeout promise REQUEST_TIMEOUT_MS) ;;
                ret (firstInlineImage (firstCandidateParts fallbackResponse))
              else ret None) ;;
           match fromFallback with
           | Some url => ret (Some url)
           | None =>
               message <- lift (readMessage error) ;;
               if match message with
                  | Some m => Js.includes "Requested entity was not found" m
                  | None => false
                  end
               then throw (ThrownObj (Error "API_KEY_INVALID"))
               else throw error
           end) ;;
    match returned with
    | Some url => ret url
    | None => throw (ThrownObj (Error "이미지 생성 실패"))
    end.

(** ** Names for the statements *)

(** What the [catch] block ends with when the second attempt brought no
    image: the classification of the first error. *)
Definition classified (error : Thrown) : Result string :=
  match readMessage error with
  | Throw typeError => Throw typeError
  | Ok message =>
      if match message with
         | Some m => Js.includes "Requested entity was not found" m
         | None => false
         end
      then Throw (ThrownObj (Error "API_KEY_INVALID"))
      else Throw error
  end.


(** [process.env.API_KEY || process.env.GEMINI_API_KEY]: the process-wide
    default credential. *)
Definition defaultKey (P : Platform) : option string :=
  Js.or (env_API_KEY P) (env_GEMINI_API_KEY P).

(** The call a client built for [apiKey] sends for [request]. *)
Definition callOf (P : Platform) (apiKey : option string)
    (request : GenerateContentParameters) : Call :=
  {| call_apiKey := resolveApiKey P apiKey; call_request := request |}.

(** The world after [calls] more calls have left. *)
Definition afterCalls (w : World) (calls : list Call) : World :=
  {| sent := (sent w ++ calls)%list; consoleErrors := consoleErrors w |}.

(** ** Sample platforms *)

Module Sample.

(** A service that answers by the model asked for, and never answers for a
    model it does not know. *)
Definition byModel (table : list (string * Async GenerateContentResponse))
    (history : list Call) (call : Call) : Async GenerateContentResponse :=
  match find (fun entry => fst entry =? model (call_request call)) table with
  | Some entry => snd entry
  | None => Pending
  end.

Definition platform (envKey : option string)
    (table : list (string * Async GenerateContentResponse)) : Platform :=
  {| env_API_KEY := None;
     env_GEMINI_API_KEY := envKey;
     service := byModel table;
     JSON_parse := fun text => Ok (JString text) |}.

Definition apiError (status : N) (message : string) : Thrown :=
  ThrownObj {| err_name := "ApiError"; err_message := Some message;
               err_status := Some status |}.

Definition textResponse (text : option string) : GenerateContentResponse :=
  {| response_text := text; response_candidates := None |}.

Definition imageResponse (data : string) : GenerateContentResponse :=
  {| response_text := None;
     response_candidates :=
       Some [{| candidate_parts :=
                  Some (Some [{| part_inlineData := None; part_text := Some "shot" |};
                              {| part_inlineData :=
                                   Some {| inline_mimeType := Some "image/png";
                                           inline_data := Some data |};
                                 part_text := None |}]) |}] |}.

Definition shot : ShotConfig :=
  {| shot_aspectRatio := "16:9"; shot_resolution := "2K" |}.

Definition photo : string := "data:image/jpeg;base64,QUJD".

(** A request factory over a counter of the calls it received. *)
Definition factory (model : string) : M nat (Async nat) :=
  fun calls =>
    (Ok (if model =? "tier-a" then Settles 80 (Throw (apiError 403 "Permission denied"))
         else if model =? "tier-b" then Settles 90 (Throw (apiError 429 "Quota exceeded"))
         else Settles 70 (Ok calls)),
     Datatypes.S calls).

End Sample.

(** ** Further names for the statements *)

(** The outcome of the last attempt of a record, [default] when the record
    is empty. *)
Definition lastAttemptOutcome {T : Type} (default : Result T)
    (log : list (Attempt T)) : Result T :=
  fold_left (fun _ attempt => attemptOutcome (snd attempt)) log default.

(** What a callback of the deadline wrapper settles the promise with, when
    it is the first to run. *)
Definition eventOutcome {T : Type} (ev : Event T) : Result T :=
  match ev with
  | TimerFires => Throw REQUEST_TIMEOUT
  | OpFulfils value => Ok value
  | OpRejects err => Throw err
  end.

(** The world after [console.error(label, error)]. *)
Definition logged (w : World) (label : string) (error : Thrown) : World :=
  {| sent := sent w; consoleErrors := (consoleErrors w ++ [(label, error)])%list |}.

(** [w'] is [w] after calls for the first tiers of the plan models, made
    with the key resolved from [apiKey], and with nothing written to the
    console. *)
Definition sendsTiers (P : Platform) (apiKey : option string)
    (request : string -> GenerateContentParameters) (w w' : World) : Prop :=
  exists n : nat,
    n <= 2 /\
    sent w' = (sent w ++ map (fun model => callOf P apiKey (request model))
                             (firstn n PLAN_MODELS))%list /\
    consoleErrors w' = consoleErrors w.

(** [w'] is [w] after more calls, of which [call] is the first. *)
Definition sendsFirst (w w' : World) (call : Call) : Prop :=
  exists later : list Call, sent w' = (sent w ++ call :: later)%list.

(** ** The application component: the parts that do not depend on the page *)

(** [String(n)] for a natural number in the range where JavaScript writes
    a number in plain decimal, as the index of a scene is. *)
Definition String_of_nat (n : nat) : string :=
  DecimalString.NilEmpty.string_of_uint (Nat.to_uint n).

Fixpoint padding (count : nat) (pad : ascii) : string :=
  match count with
  | O => EmptyString
  | Datatypes.S count' => String pad (padding count' pad)
  end.

(** [s.padStart(targetLength, pad)] for a pad of one character. *)
Definition padStart (targetLength : nat) (pad : ascii) (s : string) : string :=
  padding (targetLength - String.length s) pad ++ s.

(** [s.slice(0, count)] *)
Fixpoint sliceFromStart (count : nat) (s : string) : string :=
  match count, s with
  | Datatypes.S count', String c rest => String c (sliceFromStart count' rest)
  | _, _ => EmptyString
  end.

(** *** [String.prototype.trim]

    A string is the sequence of the bytes of its UTF-8 form.  The characters
    that [trim] removes are the white space and the line terminators of
    ECMAScript, here in their UTF-8 form. *)
Definition bytes (codes : list nat) : string :=
  string_of_list_ascii (map ascii_of_nat codes).

Definition whiteSpace : list string :=
  [bytes [9]; bytes [10]; bytes [11]; bytes [12]; bytes [13]; bytes [32];
   bytes [194; 160];        (* U+00A0 *)
   bytes [225; 154; 128];   (* U+1680 *)
   bytes [226; 128; 128]; bytes [226; 128; 129]; bytes [226; 128; 130];
   bytes [226; 128; 131]; bytes [226; 128; 132]; bytes [226; 128; 133];
   bytes [226; 128; 134]; bytes [226; 128; 135]; bytes [226; 128; 136];
   bytes [226; 128; 137]; bytes [226; 128; 138];   (* U+2000 to U+200A *)
   bytes [226; 128; 168]; bytes [226; 128; 169];   (* U+2028, U+2029 *)
   bytes [226; 128; 175];   (* U+202F *)
   bytes [226; 129; 159];   (* U+205F *)
   bytes [227; 128; 128];   (* U+3000 *)
   bytes [239; 187; 191]].  (* U+FEFF *)

(** What follows [p] in [s], when [s] starts with [p]. *)
Fixpoint afterPrefix (p s : string) : option string :=
  match p, s with
  | EmptyString, _ => Some s
  | String _ _, EmptyString => None
  | String a p', String b s' => if Ascii.eqb a b then afterPrefix p' s' else None
  end.

(** What follows the first of [prefixes] that [s] starts with. *)
Fixpoint afterOneOf (prefixes : list string) (s : string) : option string :=
  match prefixes with
  | [] => None
  | p :: others =>
      match afterPrefix p s with
      | Some rest => Some rest
      | None => afterOneOf others s
      end
  end.

(** [s] without the [prefixes] it starts with, at most [count] of them. *)
Fixpoint dropLeading (prefixes : list string) (count : nat) (s : string) : string :=
  match count with
  | 0 => s
  | Datatypes.S count' =>
      match afterOneOf prefixes s with
      | Some rest => dropLeading prefixes count' rest
      | None => s
      end
  end.

Definition reverse (s : string) : string :=
  string_of_list_ascii (rev (list_ascii_of_string s)).

Definition trimStart (s : string) : string :=
  dropLeading whiteSpace (length s) s.

Definition trimEnd (s : string) : string :=
  reverse (dropLeading (map reverse whiteSpace) (length s) (reverse s)).

Definition trim (s : string) : string := trimEnd (trimStart s).

Module App.

(** *** File names for the downloads *)

(** The lower-casing of [toLowerCase], exact where [toSafeFilename] can
    tell: besides the letters [A]..[Z], the two characters outside ASCII
    whose lower case has an ASCII letter are mapped, U+212A (bytes 226 132
    170) to [k] and U+0130 (bytes 196 176) to [i] followed by U+0307 (bytes
    204 135).  Every other character outside ASCII is left as it is: its
    lower case lies outside ASCII as well, and the next step of
    [toSafeFilename] turns a run of such characters into one underscore
    whichever they are. *)
Fixpoint lowerCaseText (s : string) : string :=
  match s with
  | EmptyString => EmptyString
  | String c1 rest1 =>
      match rest1 with
      | EmptyString => String (Js.lowerChar c1) EmptyString
      | String c2 rest2 =>
          if Ascii.eqb c1 "196" && Ascii.eqb c2 "176"
          then String "i" (String "204" (String "135" (lowerCaseText rest2)))
          else
            match rest2 with
            | EmptyString => String (Js.lowerChar c1) (lowerCaseText rest1)
            | String c3 rest3 =>
                if Ascii.eqb c1 "226" && Ascii.eqb c2 "132" && Ascii.eqb c3 "170"
                then String "k" (lowerCaseText rest3)
                else String (Js.lowerChar c1) (lowerCaseText rest1)
            end
      end
  end.

(** The class [[a-z0-9-_]] under the flag [i]. *)
Definition inClass (c : ascii) : bool :=
  let n := nat_of_ascii c in
  ((97 <=? n) && (n <=? 122) || (65 <=? n) && (n <=? 90) ||
   (48 <=? n) && (n <=? 57) || (n =? 45) || (n =? 95))%nat.

(** [.replace(/[^a-z0-9-_]+/gi, "_")]: every maximal run of characters
    outside the class becomes one underscore.  [inRun] tells that the
    character before was outside the class. *)
Fixpoint replaceRuns (inRun : bool) (s : string) : string :=
  match s with
  | EmptyString => EmptyString
  | String c rest =>
      if inClass c then String c (replaceRuns false rest)
      else if inRun then replaceRuns true rest
      else String "_" (replaceRuns true rest)
  end.

Fixpoint dropLeadingUnderscores (s : string) : string :=
  match s with
  | EmptyString => EmptyString
  | String c rest => if Ascii.eqb c "_" then dropLeadingUnderscores rest else s
  end.

Fixpoint dropTrailingUnderscores (s : string) : string :=
  match s with
  | EmptyString => EmptyString
  | String c rest =>
      match dropTrailingUnderscores rest with
      | EmptyString => if Ascii.eqb c "_" then EmptyString else String c EmptyString
      | kept => String c kept
      end
  end.

(** [.replace(/^_+|_+$/g, "")] *)
Definition trimUnderscores (s : string) : string :=
  dropTrailingUnderscores (dropLeadingUnderscores s).

Definition toSafeFilename (value : string) : string :=
  let cleaned :=
    sliceFromStart 40 (trimUnderscores (replaceRuns false (lowerCaseText value))) in
  if cleaned =? "" then "image" else cleaned.

(** *** The scenes of the board *)

Inductive AngleStatus : Type :=
| StatusPending
| StatusGenerating
| StatusCompleted
| StatusError.

Record StoryboardAngle : Type := {
  board_id : nat;
  board_name : string;
  board_description : string;
  board_prompt : string;
  board_promptKo : string;
  board_imageUrl : option string;
  board_status : AngleStatus
}.

(** [plan.angles.map((a, idx) => ({ id: idx, ..., status: 'pending' }))],
    from the index [idx] on. *)
Fixpoint indexedAngles (idx : nat) (entries : list Angle) : list StoryboardAngle :=
  match entries with
  | [] => []
  | a :: rest =>
      {| board_id := idx;
         board_name := angle_name a;
         board_description := "";
         board_prompt := angle_prompt a;
         board_promptKo := angle_promptKo a;
         board_imageUrl := None;
         board_status := StatusPending |} :: indexedAngles (Datatypes.S idx) rest
  end.

Definition initialAngles (plan : StoryboardPlan) : list StoryboardAngle :=
  indexedAngles 0 (angles plan).

(** [{ ...a, status }] *)
Definition withStatus (status : AngleStatus) (a : StoryboardAngle) : StoryboardAngle :=
  {| board_id := board_id a;
     board_name := board_name a;
     board_description := board_description a;
     board_prompt := board_prompt a;
     board_promptKo := board_promptKo a;
     board_imageUrl := board_imageUrl a;
     board_status := status |}.

(** [{ ...a, status: 'completed', imageUrl }] *)
Definition completedWith (imageUrl : string) (a : StoryboardAngle) : StoryboardAngle :=
  {| board_id := board_id a;
     board_name := board_name a;
     board_description := board_description a;
     board_prompt := board_prompt a;
     board_promptKo := board_promptKo a;
     board_imageUrl := Some imageUrl;
     board_status := StatusCompleted |}.

(** [prev.angles.map(a => a.id === id ? change(a) : a)] *)
Definition updateAngle (id : nat) (change : StoryboardAngle -> StoryboardAngle)
    (board : list StoryboardAngle) : list StoryboardAngle :=
  map (fun a => if (board_id a =? id)%nat then change a else a) board.

(** *** Downloads *)

Record Download : Type := { download_href : string; download_name : string }.

Definition downloadName (a : StoryboardAngle) : string :=
  "storyboard_step_" ++ padStart 2 "0" (String_of_nat (board_id a + 1)) ++ "_" ++
  toSafeFilename (board_name a) ++ ".png".

(** [handleDownloadImage]: the download started, if any. *)
Definition handleDownloadImage (a : StoryboardAngle) : option Download :=
  if Js.truthy (board_imageUrl a)
  then Some {| download_href := spliced (board_imageUrl a);
               download_name := downloadName a |}
  else None.

(** The timers set by [available.forEach], from the index [index] on: each
    with its delay in milliseconds and the download its callback starts. *)
Fixpoint scheduleDownloads (index : nat) (available : list StoryboardAngle)
    : list (nat * option Download) :=
  match available with
  | [] => []
  | a :: rest =>
      (index * 200, handleDownloadImage a) :: scheduleDownloads (Datatypes.S index) rest
  end.

(** [handleDownloadAllImages]: the message given to [setError], or the
    timers set. *)
Definition handleDownloadAllImages (board : list StoryboardAngle)
    : string + list (nat * option Download) :=
  let available := filter (fun a => Js.truthy (board_imageUrl a)) board in
  match available with
  | [] => inl "다운로드할 이미지가 없습니다."
  | _ => inr (scheduleDownloads 0 available)
  end.

(** *** The state of the page *)

Inductive AppStep : Type := upload | modeSetup | planning | result.
Inductive GenerationMode : Type := standard | pro.

Record AppState : Type := {
  appMode : AppMode;
  appStep : AppStep;
  originalImage : option string;
  plan : option StoryboardPlan;
  board : list StoryboardAngle;
  isAnalyzing : bool;
  analysisProgress : nat;
  isGeneratingAll : bool;
  generationMode : GenerationMode;
  suggestedCategories : list string;
  selectedCategory : option string;
  zoomDirection : ZoomDirection;
  isTranslated : bool;
  isEditing : bool
}.

Definition INITIAL_STATE : AppState :=
  {| appMode := home;
     appStep := upload;
     originalImage := None;
     plan := None;
     board := [];
     isAnalyzing := false;
     analysisProgress := 0;
     isGeneratingAll := false;
     generationMode := standard;
     suggestedCategories := [];
     selectedCategory := None;
     zoomDirection := ZoomIn;
     isTranslated := false;
     isEditing := false |}.

(** [{ ...prev, appStep, originalImage }] *)
Definition withStep (step : AppStep) (image : option string) (prev : AppState)
    : AppState :=
  {| appMode := appMode prev;
     appStep := step;
     originalImage := image;
     plan := plan prev;
     board := board prev;
     isAnalyzing := isAnalyzing prev;
     analysisProgress := analysisProgress prev;
     isGeneratingAll := isGeneratingAll prev;
     generationMode := generationMode prev;
     suggestedCategories := suggestedCategories prev;
     selectedCategory := selectedCategory prev;
     zoomDirection := zoomDirection prev;
     isTranslated := isTranslated prev;
     isEditing := isEditing prev |}.

(** [handleBack], on a state that no update is pending for. *)
Definition handleBack (state : AppState) : AppState :=
  match appStep state with
  | result =>
      withStep (match appMode state with
                | whatsNext | zooms => modeSetup
                | _ => upload
                end)
               (originalImage state) state
  | modeSetup | planning => withStep upload None state
  | upload => INITIAL_STATE
  end.

(** The update made every 300 ms while the analysis runs; [draw] is
    [Math.floor(Math.random() * 5)], a number from 0 to 4. *)
Definition progressTick (draw : nat) (prev : AppState) : AppState :=
  {| appMode := appMode prev;
     appStep := appStep prev;
     originalImage := originalImage prev;
     plan := plan prev;
     board := board prev;
     isAnalyzing := isAnalyzing prev;
     analysisProgress :=
       if (analysisProgress prev <? 95)%nat then analysisProgress prev + draw + 1 else 95;
     isGeneratingAll := isGeneratingAll prev;
     generationMode := generationMode prev;
     suggestedCategories := suggestedCategories prev;
     selectedCategory := selectedCategory prev;
     zoomDirection := zoomDirection prev;
     isTranslated := isTranslated prev;
     isEditing := isEditing prev |}.

(** *** The key panel *)

Inductive KeyStatus : Type := KeyNone | KeySaved | KeyChecking | KeyValid | KeyInvalid.

(** The state the key handlers read and write; [storedKey] is the entry
    [gemini_api_key] of the local storage. *)
Record KeyPanel : Type := {
  apiKey : string;
  keyInput : string;
  keyStatus : KeyStatus;
  keyMessage : option string;
  proAccess : bool;
  errorText : option string;
  storedKey : option string
}.

(** The local storage of the browser, as far as the key handlers use it:
    what a write and a removal of an entry end with.  Both throw when the
    page may not use the storage, and a write also when the storage is
    full. *)
Record Storage : Type := {
  storage_setItem : string -> string -> Result unit;
  storage_removeItem : string -> Result unit
}.

(** What a key handler acts on: the panel, and the world of the service. *)
Record Page : Type := {
  page_panel : KeyPanel;
  page_world : World
}.

Definition setPanel (update : KeyPanel -> KeyPanel) : M Page unit :=
  fun page =>
    (Ok tt, {| page_panel := update (page_panel page); page_world := page_world page |}).

(** A call of the service layer, made from the page. *)
Definition onWorld {A : Type} (m : M World A) : M Page A :=
  fun page =>
    let (r, w) := m (page_world page) in
    (r, {| page_panel := page_panel page; page_world := w |}).

Definition setApiKey (value : string) : M Page unit :=
  setPanel (fun prev =>
    {| apiKey := value; keyInput := keyInput prev; keyStatus := keyStatus prev;
       keyMessage := keyMessage prev; proAccess := proAccess prev;
       errorText := errorText prev; storedKey := storedKey prev |}).

Definition setKeyInput (value : string) : M Page unit :=
  setPanel (fun prev =>
    {| apiKey := apiKey prev; keyInput := value; keyStatus := keyStatus prev;
       keyMessage := keyMessage prev; proAccess := proAccess prev;
       errorText := errorText prev; storedKey := storedKey prev |}).

Definition setKeyStatus (value : KeyStatus) : M Page unit :=
  setPanel (fun prev =>
    {| apiKey := apiKey prev; keyInput := keyInput prev; keyStatus := value;
       keyMessage := keyMessage prev; proAccess := proAccess prev;
       errorText := errorText prev; storedKey := storedKey prev |}).

Definition setKeyMessage (value : option string) : M Page unit :=
  setPanel (fun prev =>
    {| apiKey := apiKey prev; keyInput := keyInput prev; keyStatus := keyStatus prev;
       keyMessage := value; proAccess := proAccess prev;
       errorText := errorText prev; storedKey := storedKey prev |}).

Definition setProAccess (value : bool) : M Page unit :=
  setPanel (fun prev =>
    {| apiKey := apiKey prev; keyInput := keyInput prev; keyStatus := keyStatus prev;
       keyMessage := keyMessage prev; proAccess := value;
       errorText := errorText prev; storedKey := storedKey prev |}).

Definition setError (value : option string) : M Page unit :=
  setPanel (fun prev =>
    {| apiKey := apiKey prev; keyInput := keyInput prev; keyStatus := keyStatus prev;
       keyMessage := keyMessage prev; proAccess := proAccess prev;
       errorText := value; storedKey := storedKey prev |}).

Definition withStoredKey (value : option string) (prev : KeyPanel) : KeyPanel :=
  {| apiKey := apiKey prev; keyInput := keyInput prev; keyStatus := keyStatus prev;
     keyMessage := keyMessage prev; proAccess := proAccess prev;
     errorText := errorText prev; storedKey := value |}.

(** [localStorage.setItem('gemini_api_key', value)]: the entry is written
    unless the storage throws. *)
Definition localStorage_setItem (B : Storage) (value : string) : M Page unit :=
  _ <- await (storage_setItem B "gemini_api_key" value) ;;
  setPanel (withStoredKey (Some value)).

(** [localStorage.removeItem('gemini_api_key')]. *)
Definition localStorage_removeItem (B : Storage) : M Page unit :=
  _ <- await (storage_removeItem B "gemini_api_key") ;;
  setPanel (withStoredKey None).

Definition handleDisconnectKey (B : Storage) : M Page unit :=
  _ <- localStorage_removeItem B ;;
  _ <- setApiKey "" ;;
  _ <- setKeyInput "" ;;
  _ <- setKeyStatus KeyNone ;;
  _ <- setKeyMessage (Some "API Key 연결이 해제되었습니다.") ;;
  _ <- setError None ;;
  setProAccess false.

(** [handleSaveApiKey].  The statements before the [await] run at once; what
    they have set stays when a later statement throws. *)
Definition handleSaveApiKey (B : Storage) (P : Platform) : M Page unit :=
  fun page =>
    let trimmedKey := trim (keyInput (page_panel page)) in
    if trimmedKey =? "" then handleDisconnectKey B page
    else
      (_ <- setApiKey trimmedKey ;;
       _ <- localStorage_setItem B trimmedKey ;;
       _ <- setKeyStatus KeyChecking ;;
       verdict <- onWorld (validateApiKey P (Some trimmedKey)) ;;
       _ <- setKeyStatus (if valid verdict then KeyValid else KeyInvalid) ;;
       _ <- setProAccess (proAvailable verdict) ;;
       _ <- setError (if valid verdict then None
                      else Some "API Key가 유효하지 않습니다.") ;;
       setKeyMessage
         (Some (if valid verdict
                then if proAvailable verdict then "검증이 완료되었습니다."
                     else "키는 유효하지만 Pro 접근이 없습니다."
                else "API Key가 유효하지 않습니다."))) page.

(** What the [catch] block of [generateAngleImage] sets: the key status, if
    it changes one, the message for [setError], and whether it opens the key
    dialog. *)
Record ErrorReport : Type := {
  report_keyStatus : option KeyStatus;
  report_error : string;
  report_opensDialog : bool
}.

Definition reportShotError (err : Thrown) : Result ErrorReport :=
  match readMessage err with
  | Throw typeError => Throw typeError
  | Ok message =>
      Ok (if match message with Some m => m =? "API_KEY_MISSING" | None => false end
          then {| report_keyStatus := Some KeyNone;
                  report_error := "API Key를 입력하세요.";
                  report_opensDialog := true |}
          else if match message with Some m => m =? "REQUEST_TIMEOUT" | None => false end
          then {| report_keyStatus := None;
                  report_error := "이미지 생성 시간이 초과되었습니다. 다시 시도해 주세요.";
                  report_opensDialog := false |}
          else if match message with
                  | Some m => (m =? "API_KEY_INVALID") ||
                              Js.includes "Requested entity was not found" m
                  | None => false
                  end
          then {| report_keyStatus := Some KeyInvalid;
                  report_error := "Pro API Key가 유효하지 않거나 한도를 초과했습니다. 다시 설정하거나 Standard 모드를 사용하세요.";
                  report_opensDialog := false |}
          else {| report_keyStatus := None;
                  report_error := "이미지 생성 중 오류가 발생했습니다.";
                  report_opensDialog := false |})
  end.

End App.

(** ** Names for the statements about the application component *)

(** All characters of [s] satisfy [p]. *)
Fixpoint allChars (p : ascii -> bool) (s : string) : bool :=
  match s with
  | EmptyString => true
  | String c rest => p c && allChars p rest
  end.

(** A lower-case letter, a digit, a hyphen or an underscore. *)
Definition safeChar (c : ascii) : bool :=
  let n := nat_of_ascii c in
  ((97 <=? n) && (n <=? 122) || (48 <=? n) && (n <=? 57) || (n =? 45) || (n =? 95))%nat.

Definition notUpper (c : ascii) : bool :=
  let n := nat_of_ascii c in
  negb ((65 <=? n) && (n <=? 90))%nat.

Fixpoint lastChar (s : string) : option ascii :=
  match s with
  | EmptyString => None
  | String c EmptyString => Some c
  | String _ rest => lastChar rest
  end.

(** The progress after the ticks of [draws], oldest first. *)
Definition runTicks (draws : list nat) (state : App.AppState) : App.AppState :=
  fold_left (fun prev draw => App.progressTick draw prev) draws state.

(** The scenes are numbered by their position. *)
Definition numberedByPosition (board : list App.StoryboardAngle) : Prop :=
  map App.board_id board = seq 0 (List.length board).

(** What the [catch] block of [generateAngleImage] sets for a key that the
    service does not know. *)
Definition invalidKeyReport : App.ErrorReport :=
  {| App.report_keyStatus := Some App.KeyInvalid;
     App.report_error := "Pro API Key가 유효하지 않거나 한도를 초과했습니다. 다시 설정하거나 Standard 모드를 사용하세요.";
     App.report_opensDialog := false |}.

Definition hasImage (a : App.StoryboardAngle) : bool :=
  Js.truthy (App.board_imageUrl a).

Definition isDigit (c : ascii) : bool :=
  let n := nat_of_ascii c in ((48 <=? n) && (n <=? 57))%nat.

(** A storage that takes every write and removal. *)
Definition workingStorage : App.Storage :=
  {| App.storage_setItem := fun _ _ => Ok tt;
     App.storage_removeItem := fun _ => Ok tt |}.

(** What a full storage throws on a write. *)
Definition quotaExceeded : Thrown :=
  ThrownObj {| err_name := "QuotaExceededError";
               err_message := Some "The quota has been exceeded.";
               err_status := None |}.

(** A storage that is full: it refuses every write. *)
Definition fullStorage : App.Storage :=
  {| App.storage_setItem := fun _ _ => Throw quotaExceeded;
     App.storage_removeItem := fun _ => Ok tt |}.

(** The page with a valid key in use and [input] typed into the key field. *)
Definition pageWithInput (input : string) : App.Page :=
  {| App.page_panel :=
       {| App.apiKey := "old-key"; App.keyInput := input;
          App.keyStatus := App.KeyValid; App.keyMessage := None;
          App.proAccess := true; App.errorText := None;
          App.storedKey := Some "old-key" |};
     App.page_world := emptyWorld |}.

(** ** Facts about strings *)

Section StringFacts.









End StringFacts.

(** ** The classifier agrees with the specification's wording *)



(** ** The deadline wrapper *)

Section Wrapper.

Context {T : Type}.

(** A settled wrapper stays as it is, whatever callback runs later. *)
Lemma wrapperStep_settled (w : Wrapper T) (ev : Event T) (r : Result T) :
  settled w = Some r -> settled (wrapperStep w ev) = Some r.
Proof.
  intros H. destruct ev; simpl; unfold settle; try now rewrite H.
  destruct (timerArmed w); simpl; now rewrite H.
Qed.

Lemma fold_wrapperStep_settled (events : list (Event T)) (w : Wrapper T) (r : Result T) :
  settled w = Some r -> settled (fold_left wrapperStep events w) = Some r.
Proof.
  revert w; induction events as [|ev events IH]; intros w H; simpl.
  - exact H.
  - apply IH. now apply wrapperStep_settled.
Qed.



(** Once the operation's callback has run, the timer is cleared. *)
Lemma runWrapper_clears_timer (r : Result T) :
  timerArmed (runWrapper [opEvent r]) = false.
Proof. now destruct r. Qed.


End Wrapper.


Lemma timerDelay_kept (ms : N) : keptByTimer ms -> timerDelay ms = ms.
Proof.
  unfold keptByTimer, timerDelay. intros [_ Hms]. cbv zeta.
  rewrite (N.mod_small ms 4294967296) by lia.
  apply N.ltb_lt in Hms. now rewrite Hms.
Qed.

Lemma keptByTimer_REQUEST_TIMEOUT_MS : keptByTimer REQUEST_TIMEOUT_MS.
Proof. unfold keptByTimer, REQUEST_TIMEOUT_MS. lia. Qed.


Lemma withTimeout_within (T : Type) (promise : Async T) (ms : N) (r : Result T) :
  keptByTimer ms -> settlesWithin promise ms r -> withTimeout promise ms = r.
Proof.
  intros Hms [t [-> Ht]]. simpl. rewrite (timerDelay_kept Hms).
  apply N.leb_le in Ht. now rewrite Ht.
Qed.

Lemma withTimeout_expired (T : Type) (promise : Async T) (ms : N) :
  keptByTimer ms -> expires promise ms -> withTimeout promise ms = Throw REQUEST_TIMEOUT.
Proof.
  intros Hms. destruct promise as [t r|]; simpl; [|reflexivity].
  rewrite (timerDelay_kept Hms).
  intros H. apply N.leb_gt in H. now rewrite H.
Qed.





(** ** The tiered fallback executor *)

(** One turn of the loop. *)
Lemma tryModels_cons (S T : Type) (requestFactory : string -> M S (Async T))
    (model : string) (rest : list string) (lastError : Thrown) (s : S) :
  tryModels requestFactory (model :: rest) lastError s =
  match attemptOutcome (fst (requestFactory model s)) with
  | Ok value => (Ok value, snd (requestFactory model s))
  | Throw error =>
      if isModelAccessError error
      then tryModels requestFactory rest error (snd (requestFactory model s))
      else (Throw error, snd (requestFactory model s))
  end.
Proof.
  cbn [tryModels]. unfold tryCatch, bind, lift, throw.
  destruct (requestFactory model s) as [[promise | e] s1]; simpl.
  - destruct (withTimeout promise REQUEST_TIMEOUT_MS) as [value | e]; [reflexivity|].
    now destruct (isModelAccessError e).
  - now destruct (isModelAccessError e).
Qed.

Section Fallback.

Context {S T : Type}.

Lemma traced_run (requestFactory : string -> M S (Async T)) (model : string)
    (s : S) (log : list (Attempt T)) :
  traced requestFactory model (s, log) =
  (fst (requestFactory model s),
   (snd (requestFactory model s), (log ++ [(model, fst (requestFactory model s))])%list)).
Proof.
  unfold traced. simpl. now destruct (requestFactory model s).
Qed.

(** Recording the attempts changes neither the result nor the state. *)
Lemma tryModels_traced_erase (requestFactory : string -> M S (Async T))
    (models : list string) (lastError : Thrown) (s : S) (log : list (Attempt T)) :
  fst (tryModels (traced requestFactory) models lastError (s, log)) =
    fst (tryModels requestFactory models lastError s) /\
  fst (snd (tryModels (traced requestFactory) models lastError (s, log))) =
    snd (tryModels requestFactory models lastError s).
Proof.
  revert lastError s log; induction models as [|model rest IH]; intros lastError s log.
  - now split.
  - rewrite !tryModels_cons, traced_run. simpl.
    destruct (requestFactory model s) as [r s1]; simpl.
    destruct (attemptOutcome r) as [value | e]; [now split|].
    destruct (isModelAccessError e); [apply IH | now split].
Qed.

(** What the record holds after a run: one entry per tier tried, in the
    order of the list, and a hard failure only as its last entry. *)
Lemma tryModels_traced_log (requestFactory : string -> M S (Async T))
    (models : list string) (lastError : Thrown) (s : S) (log : list (Attempt T)) :
  exists new : list (Attempt T),
    snd (snd (tryModels (traced requestFactory) models lastError (s, log))) = (log ++ new)%list /\
    map fst new = firstn (List.length new) models /\
    forall (i : nat) (model : string) (attempt : Result (Async T)) (error : Thrown),
      nth_error new i = Some (model, attempt) ->
      attemptOutcome attempt = Throw error ->
      isModelAccessError error = false ->
      fst (tryModels (traced requestFactory) models lastError (s, log)) = Throw error /\
      List.length new = Datatypes.S i.
Proof.
  revert lastError s log; induction models as [|model rest IH]; intros lastError s log.
  - exists []. simpl. rewrite app_nil_r.
    split; [reflexivity|]. split; [reflexivity|].
    intros [|i] m a e H; discriminate.
  - rewrite tryModels_cons, traced_run. simpl.
    destruct (requestFactory model s) as [r s1] eqn:Hf; simpl.
    destruct (attemptOutcome r) as [value | e] eqn:Hout.
    + exists [(model, r)]. simpl.
      split; [reflexivity|]. split; [reflexivity|].
      intros [|i] m a err H Ha Hacc; simpl in H.
      * injection H as <- <-. congruence.
      * destruct i; discriminate.
    + destruct (isModelAccessError e) eqn:Hacc.
      * destruct (IH e s1 (log ++ [(model, r)])%list) as [new [Hlog [Hmap Hhard]]].
        exists ((model, r) :: new). rewrite Hlog, <- app_assoc. simpl.
        split; [reflexivity|]. split; [now rewrite Hmap|].
        intros [|i] m a err H Ha Herr; simpl in H.
        -- injection H as <- <-. congruence.
        -- destruct (Hhard i m a err H Ha Herr) as [Hres Hlen].
           split; [exact Hres | now rewrite Hlen].
      * exists [(model, r)]. simpl.
        split; [reflexivity|]. split; [reflexivity|].
        intros [|i] m a err H Ha Herr; simpl in H.
        -- injection H as <- <-. split; [congruence | reflexivity].
        -- destruct i; discriminate.
Qed.

End Fallback.

(** C1: when the attempt against a tier fails with an error that is not
    access-class, the executor throws exactly that error, and the attempts
    made are those against the tiers up to this one: none is made against a
    later tier. *)
Theorem generateWithFallback_hard_stop
    (S T : Type) (ai : GoogleGenAI) (models : list string)
    (requestFactory : string -> M S (Async T)) (s : S)
    (i : nat) (model : string) (attempt : Result (Async T)) (error : Thrown) :
  let run := generateWithFallback ai models (traced requestFactory) (s, []) in
  nth_error (snd (snd run)) i = Some (model, attempt) ->
  attemptOutcome attempt = Throw error ->
  isModelAccessError error = false ->
  fst run = Throw error /\
  fst (generateWithFallback ai models requestFactory s) = Throw error /\
  map fst (snd (snd run)) = firstn (Datatypes.S i) models /\
  List.length (snd (snd run)) = Datatypes.S i.
Proof.
  cbv zeta. unfold generateWithFallback. intros Hnth Hout Hacc.
  destruct (tryModels_traced_log requestFactory models ThrownUndefined s [])
    as [new [Hlog [Hmap Hhard]]].
  simpl in Hlog. rewrite Hlog in *.
  destruct (Hhard i model attempt error Hnth Hout Hacc) as [Hres Hlen].
  repeat split.
  - exact Hres.
  - rewrite <- Hres. symmetry.
    apply (tryModels_traced_erase requestFactory models ThrownUndefined s []).
  - now rewrite Hmap, Hlen.
  - exact Hlen.
Qed.

Lemma generateWithFallback_hard_stop_witness :
  let run := generateWithFallback (newGoogleGenAI (Some "key"))
               ["tier-a"; "tier-b"; "tier-c"] (traced Sample.factory) (0, []) in
  fst run = Throw (Sample.apiError 429 "Quota exceeded") /\
  fst (generateWithFallback (newGoogleGenAI (Some "key"))
         ["tier-a"; "tier-b"; "tier-c"] Sample.factory 0)
    = Throw (Sample.apiError 429 "Quota exceeded") /\
  map fst (snd (snd run)) = ["tier-a"; "tier-b"] /\
  List.length (snd (snd run)) = 2.
Proof.
  apply (@generateWithFallback_hard_stop nat nat (newGoogleGenAI (Some "key"))
           ["tier-a"; "tier-b"; "tier-c"] Sample.factory 0 1 "tier-b"
           (Ok (Settles 90 (Throw (Sample.apiError 429 "Quota exceeded"))))
           (Sample.apiError 429 "Quota exceeded")).
  - reflexivity.
  - reflexivity.
  - reflexivity.
Defined.

(** ** The key validator *)

(** C5: with no credential given and no default in the process, the
    validator answers [{valid: false, proAvailable: false}] and leaves the
    world as it was: no call leaves for the service. *)
Theorem validateApiKey_without_credential (P : Platform) (w : World) :
  Js.truthy (defaultKey P) = false ->
  validateApiKey P None w = (Ok {| valid := false; proAvailable := false |}, w).
Proof.
  intros H. unfold validateApiKey.
  change (resolveApiKey P None) with (defaultKey P).
  now rewrite H.
Qed.

Lemma validateApiKey_without_credential_witness :
  validateApiKey (Sample.platform None []) None emptyWorld =
    (Ok {| valid := false; proAvailable := false |}, emptyWorld) /\
  sent emptyWorld = [].
Proof.
  split.
  - apply (validateApiKey_without_credential (Sample.platform None []) emptyWorld).
    reflexivity.
  - reflexivity.
Defined.

(** C6: when the probe of the premium tier fails with an access-class error
    and the probe of the standard tier then succeeds, the validator answers
    [{valid: true, proAvailable: false}]; the two probes are the only calls
    made. *)
Theorem validateApiKey_tier_fallback (P : Platform) (apiKey : option string)
    (w : World) (error : Thrown) (response : GenerateContentResponse) :
  let premium := callOf P apiKey (probe "gemini-2.5-pro") in
  let standard := callOf P apiKey (probe "gemini-2.5-flash") in
  Js.truthy (resolveApiKey P apiKey) = true ->
  withTimeout (service P (sent w) premium) VALIDATION_TIMEOUT_MS = Throw error ->
  isModelAccessError error = true ->
  withTimeout (service P (sent w ++ [premium])%list standard) VALIDATION_TIMEOUT_MS
    = Ok response ->
  validateApiKey P apiKey w =
    (Ok {| valid := true; proAvailable := false |}, afterCalls w [premium; standard]).
Proof.
  intros premium standard Hkey Hpro Hacc Hstd.
  unfold validateApiKey. rewrite Hkey.
  unfold tryCatch, bind, generateContent, lift, ret, throw.
  cbn [negb nth PLAN_MODELS client_apiKey].
  change {| call_apiKey := resolveApiKey P apiKey;
            call_request := probe "gemini-2.5-pro" |} with premium.
  rewrite Hpro, Hacc.
  cbn [negb sent consoleErrors].
  change {| call_apiKey := resolveApiKey P apiKey;
            call_request := probe "gemini-2.5-flash" |} with standard.
  rewrite Hstd.
  unfold afterCalls. now rewrite <- app_assoc.
Qed.

Lemma validateApiKey_tier_fallback_witness :
  fst (validateApiKey
         (Sample.platform None
            [("gemini-2.5-pro", Settles 310 (Throw (Sample.apiError 403 "Permission denied")));
             ("gemini-2.5-flash", Settles 250 (Ok (Sample.textResponse (Some "ok"))))])
         (Some "user-key") emptyWorld)
  = Ok {| valid := true; proAvailable := false |}.
Proof.
  rewrite (@validateApiKey_tier_fallback
             (Sample.platform None
                [("gemini-2.5-pro", Settles 310 (Throw (Sample.apiError 403 "Permission denied")));
                 ("gemini-2.5-flash", Settles 250 (Ok (Sample.textResponse (Some "ok"))))])
             (Some "user-key") emptyWorld
             (Sample.apiError 403 "Permission denied")
             (Sample.textResponse (Some "ok"))).
  - reflexivity.
  - reflexivity.
  - reflexivity.
  - reflexivity.
  - reflexivity.
Defined.

(** ** The plan calls *)

(** Splits on a response text known to be falsy: absent, or empty. *)
Ltac falsy_text H :=
  match type of H with
  | Js.truthy ?t = false =>
      destruct t as [?text|]; [|reflexivity];
      simpl in H; apply negb_false_iff in H; rewrite H
  end.

(** C8: a category suggestion whose response carries no text, or an empty
    one, returns the five default categories and does not fail. *)
Theorem suggestNarrativeCategories_default_on_empty
    (P : Platform) (base64Image : string) (apiKey : option string)
    (w w' : World) (ai : GoogleGenAI) (response : GenerateContentResponse) :
  getAI P apiKey = Ok ai ->
  generateWithFallback ai PLAN_MODELS
    (fun model => generateContent P ai (categoriesRequest base64Image model)) w
    = (Ok response, w') ->
  Js.truthy (response_text response) = false ->
  suggestNarrativeCategories P base64Image apiKey w =
    (Ok (JArray (map JString defaultCategories)), w') /\
  defaultCategories = ["액션"; "드라마"; "SF"; "판타지"; "일상"] /\
  List.length defaultCategories = 5.
Proof.
  intros Hai Hrun Htext. split; [|split; reflexivity].
  unfold suggestNarrativeCategories, bind, lift. rewrite Hai, Hrun.
  now falsy_text Htext.
Qed.

Lemma suggestNarrativeCategories_default_on_empty_witness :
  fst (suggestNarrativeCategories
         (Sample.platform None
            [("gemini-2.5-pro", Settles 800 (Throw (Sample.apiError 404 "Model not found")));
             ("gemini-2.5-flash", Settles 900 (Ok (Sample.textResponse (Some ""))))])
         Sample.photo (Some "user-key") emptyWorld)
  = Ok (JArray [JString "액션"; JString "드라마"; JString "SF"; JString "판타지";
                JString "일상"]).
Proof.
  pose proof (@suggestNarrativeCategories_default_on_empty
    (Sample.platform None
       [("gemini-2.5-pro", Settles 800 (Throw (Sample.apiError 404 "Model not found")));
        ("gemini-2.5-flash", Settles 900 (Ok (Sample.textResponse (Some ""))))])
    Sample.photo (Some "user-key") emptyWorld
    _ (newGoogleGenAI (Some "user-key")) (Sample.textResponse (Some ""))
    eq_refl eq_refl eq_refl) as [H _].
  rewrite H. reflexivity.
Defined.

(** C7, as the code has it: a plan generation whose tiered request succeeds
    but whose response carries no text, or an empty one, fails with the
    error of message "AI 응답 실패" and returns no value. *)
Theorem analyzeImageToStoryboardPlan_fails_on_empty
    (P : Platform) (base64Image : string) (mode : AppMode)
    (category : option string) (zoomDirection : ZoomDirection)
    (apiKey : option string)
    (w w' : World) (ai : GoogleGenAI) (response : GenerateContentResponse) :
  getAI P apiKey = Ok ai ->
  generateWithFallback ai PLAN_MODELS
    (fun model =>
       generateContent P ai (planRequest base64Image mode category zoomDirection model)) w
    = (Ok response, w') ->
  Js.truthy (response_text response) = false ->
  analyzeImageToStoryboardPlan P base64Image mode category zoomDirection apiKey w =
    (Throw (ThrownObj (Error "AI 응답 실패")), w').
Proof.
  intros Hai Hrun Htext.
  unfold analyzeImageToStoryboardPlan, bind, lift. rewrite Hai, Hrun.
  now falsy_text Htext.
Qed.

Lemma analyzeImageToStoryboardPlan_fails_on_empty_witness :
  fst (analyzeImageToStoryboardPlan
         (Sample.platform None
            [("gemini-2.5-pro", Settles 1200 (Ok (Sample.textResponse None)))])
         Sample.photo whatsNext (Some "드라마") ZoomIn (Some "user-key") emptyWorld)
  = Throw (ThrownObj (Error "AI 응답 실패")).
Proof.
  rewrite (@analyzeImageToStoryboardPlan_fails_on_empty
    (Sample.platform None
       [("gemini-2.5-pro", Settles 1200 (Ok (Sample.textResponse None)))])
    Sample.photo whatsNext (Some "드라마") ZoomIn (Some "user-key") emptyWorld
    _ (newGoogleGenAI (Some "user-key")) (Sample.textResponse None)
    eq_refl eq_refl eq_refl).
  reflexivity.
Defined.

(** The same holds for the rewriting of the prompts after an edit. *)
Lemma updatePromptsWithEdits_fails_on_empty
    (P : Platform) (plan : StoryboardPlan) (mode : AppMode) (apiKey : option string)
    (w w' : World) (ai : GoogleGenAI) (response : GenerateContentResponse) :
  getAI P apiKey = Ok ai ->
  generateWithFallback ai PLAN_MODELS
    (fun model => generateContent P ai (editRequest plan model)) w
    = (Ok response, w') ->
  Js.truthy (response_text response) = false ->
  updatePromptsWithEdits P plan mode apiKey w =
    (Throw (ThrownObj (Error "업데이트 실패")), w').
Proof.
  intros Hai Hrun Htext.
  unfold updatePromptsWithEdits, bind, lift. rewrite Hai, Hrun.
  now falsy_text Htext.
Qed.

(** C7, as stated, fails on the category suggestion: the tiered request
    succeeds at the first tier with a response that has no text, and the
    call returns a value. *)
Lemma suggestNarrativeCategories_empty_returns_value :
  let P := Sample.platform None
             [("gemini-2.5-pro", Settles 1200 (Ok (Sample.textResponse None)))] in
  let ai := newGoogleGenAI (Some "user-key") in
  fst (generateWithFallback ai PLAN_MODELS
         (fun model => generateContent P ai (categoriesRequest Sample.photo model))
         emptyWorld)
    = Ok (Sample.textResponse None) /\
  fst (suggestNarrativeCategories P Sample.photo (Some "user-key") emptyWorld)
    = Ok (JArray (map JString defaultCategories)) /\
  forall e : Thrown,
    fst (suggestNarrativeCategories P Sample.photo (Some "user-key") emptyWorld)
      <> Throw e.
Proof.
  split; [reflexivity|]. split; [reflexivity|].
  intros e. discriminate.
Qed.

(** ** The image render call *)

(** An error object whose message is "REQUEST_TIMEOUT" is access-class. *)
Lemma timeout_message_is_access (error : Thrown) :
  optMessage error = Some "REQUEST_TIMEOUT" -> isModelAccessError error = true.
Proof.
  intros H. unfold isModelAccessError, messageText. now rewrite H.
Qed.

(** The render call after a premium attempt that failed with an
    access-class error: a second call leaves, for the standard model, and
    the deadline wrapper decides what comes of it. *)
Lemma generateStoryShot_demoted (P : Platform) (prompt image : string)
    (shotConfig : ShotConfig) (apiKey : option string) (w : World) (error : Thrown) :
  let premium := callOf P apiKey (shotRequest prompt image true shotConfig) in
  let standard := callOf P apiKey (shotFallbackRequest prompt image shotConfig) in
  Js.truthy (resolveApiKey P apiKey) = true ->
  withTimeout (service P (sent w) premium) REQUEST_TIMEOUT_MS = Throw error ->
  isModelAccessError error = true ->
  generateStoryShot P prompt image true shotConfig apiKey w =
    (match withTimeout (service P (sent w ++ [premium])%list standard) REQUEST_TIMEOUT_MS with
     | Throw second => Throw second
     | Ok response =>
         match firstInlineImage (firstCandidateParts response) with
         | Some url => Ok url
         | None => classified error
         end
     end,
     afterCalls w [premium; standard]).
Proof.
  intros premium standard Hkey Hfirst Hacc.
  unfold generateStoryShot. rewrite Hkey.
  unfold tryCatch, bind, generateContent, lift, ret, throw.
  cbn [negb client_apiKey].
  change {| call_apiKey := resolveApiKey P apiKey;
            call_request := shotRequest prompt image true shotConfig |} with premium.
  rewrite Hfirst, Hacc.
  cbn [sent consoleErrors].
  change {| call_apiKey := resolveApiKey P apiKey;
            call_request := shotFallbackRequest prompt image shotConfig |} with standard.
  unfold afterCalls. rewrite <- app_assoc. cbn [app].
  destruct (withTimeout (service P (sent w ++ [premium])%list standard) REQUEST_TIMEOUT_MS)
    as [response | second]; [|reflexivity].
  destruct (firstInlineImage (firstCandidateParts response)) as [url|]; [reflexivity|].
  unfold classified. destruct (readMessage error) as [message | typeError]; [|reflexivity].
  now destruct (match message with
                | Some m => Js.includes "Requested entity was not found" m
                | None => false
                end).
Qed.

(** C3: a premium render whose first attempt fails with an access-class
    error or a timeout makes exactly one more call; that call names the
    standard image model, carries the same contents and aspect ratio and no
    image size, and is held to the same deadline of 45000 ms: when the retry
    settles after it, or never, the render fails with the timeout error; when
    the retry settles within it, the retry's own outcome decides. *)
Theorem generateStoryShot_single_demotion (P : Platform) (prompt image : string)
    (shotConfig : ShotConfig) (apiKey : option string) (w : World) (error : Thrown) :
  let premium := callOf P apiKey (shotRequest prompt image true shotConfig) in
  let standard := callOf P apiKey (shotFallbackRequest prompt image shotConfig) in
  let retry := service P (sent w ++ [premium])%list standard in
  let run := generateStoryShot P prompt image true shotConfig apiKey w in
  Js.truthy (resolveApiKey P apiKey) = true ->
  withTimeout (service P (sent w) premium) REQUEST_TIMEOUT_MS = Throw error ->
  isModelAccessError error = true \/ optMessage error = Some "REQUEST_TIMEOUT" ->
  sent (snd run) = (sent w ++ [premium; standard])%list /\
  model (call_request premium) = IMAGE_MODELS.pro /\
  model (call_request standard) = IMAGE_MODELS.fallback /\
  contents (call_request standard) = contents (call_request premium) /\
  option_map image_imageSize (imageConfig (config (call_request standard))) = Some None /\
  option_map image_aspectRatio (imageConfig (config (call_request standard))) =
    option_map image_aspectRatio (imageConfig (config (call_request premium))) /\
  (expires retry REQUEST_TIMEOUT_MS -> fst run = Throw REQUEST_TIMEOUT) /\
  (forall second, settlesWithin retry REQUEST_TIMEOUT_MS (Throw second) ->
     fst run = Throw second) /\
  (forall response url,
     settlesWithin retry REQUEST_TIMEOUT_MS (Ok response) ->
     firstInlineImage (firstCandidateParts response) = Some url ->
     fst run = Ok url).
Proof.
  intros premium standard retry run Hkey Hfirst Hclass.
  assert (Hacc : isModelAccessError error = true).
  { destruct Hclass as [H | H]; [exact H | now apply timeout_message_is_access]. }
  pose proof (generateStoryShot_demoted P prompt image shotConfig apiKey w
                Hkey Hfirst Hacc) as Hrun.
  fold premium standard retry run in Hrun.
  rewrite Hrun. cbn [fst snd].
  repeat (split; [reflexivity|]).
  split; [|split].
  - intros Hexp.
    now rewrite (withTimeout_expired _ keptByTimer_REQUEST_TIMEOUT_MS Hexp).
  - intros second Hwithin.
    now rewrite (withTimeout_within keptByTimer_REQUEST_TIMEOUT_MS Hwithin).
  - intros response url Hwithin Hurl.
    now rewrite (withTimeout_within keptByTimer_REQUEST_TIMEOUT_MS Hwithin), Hurl.
Qed.

Lemma generateStoryShot_single_demotion_witness :
  let P := fun retryAt : N =>
             Sample.platform None
               [("gemini-3-pro-image-preview", Pending);
                ("gemini-2.5-flash-image",
                 Settles retryAt (Ok (Sample.imageResponse "UE5H")))] in
  let run := fun retryAt : N =>
               generateStoryShot (P retryAt) "a walk at dusk" Sample.photo true
                 Sample.shot (Some "user-key") emptyWorld in
  map (fun call => model (call_request call)) (sent (snd (run 9000%N))) =
    ["gemini-3-pro-image-preview"; "gemini-2.5-flash-image"] /\
  fst (run 9000%N) = Ok "data:image/png;base64,UE5H" /\
  fst (run 45000%N) = Ok "data:image/png;base64,UE5H" /\
  fst (run 45001%N) = Throw REQUEST_TIMEOUT.
Proof.
  intros P run.
  pose proof (fun retryAt : N =>
                @generateStoryShot_single_demotion (P retryAt) "a walk at dusk"
                  Sample.photo Sample.shot (Some "user-key") emptyWorld
                  REQUEST_TIMEOUT eq_refl eq_refl (or_intror eq_refl)) as H.
  destruct (H 9000%N) as [Hsent [_ [_ [_ [_ [_ [_ [_ Himage]]]]]]]].
  destruct (H 45000%N) as [_ [_ [_ [_ [_ [_ [_ [_ Htie]]]]]]]].
  destruct (H 45001%N) as [_ [_ [_ [_ [_ [_ [Hlate _]]]]]]].
  split; [|split; [|split]].
  - unfold run. rewrite Hsent. reflexivity.
  - apply (Himage (Sample.imageResponse "UE5H")).
    + exists 9000%N. split; [reflexivity | discriminate].
    + reflexivity.
  - apply (Htie (Sample.imageResponse "UE5H")).
    + exists 45000%N. split; [reflexivity | discriminate].
    + reflexivity.
  - apply Hlate. reflexivity.
Defined.

(** C4, as the code has it: when the standard image model is the first
    attempt and fails with an error object, the render call throws
    [API_KEY_INVALID] if the message contains "Requested entity was not
    found", in this very case of letters, and the error itself otherwise;
    it makes no other call. *)
Theorem generateStoryShot_standard_primary_failure (P : Platform)
    (prompt image : string) (shotConfig : ShotConfig) (apiKey : option string)
    (w : World) (e : ErrorObj) :
  let standard := callOf P apiKey (shotRequest prompt image false shotConfig) in
  Js.truthy (resolveApiKey P apiKey) = true ->
  withTimeout (service P (sent w) standard) REQUEST_TIMEOUT_MS = Throw (ThrownObj e) ->
  model (call_request standard) = IMAGE_MODELS.fallback /\
  generateStoryShot P prompt image false shotConfig apiKey w =
    (if Js.includes "Requested entity was not found" (messageText (ThrownObj e))
     then Throw (ThrownObj (Error "API_KEY_INVALID"))
     else Throw (ThrownObj e),
     afterCalls w [standard]).
Proof.
  intros standard Hkey Hfirst. split; [reflexivity|].
  unfold generateStoryShot. rewrite Hkey.
  unfold tryCatch, bind, generateContent, lift, ret, throw.
  cbn [negb client_apiKey].
  change {| call_apiKey := resolveApiKey P apiKey;
            call_request := shotRequest prompt image false shotConfig |} with standard.
  rewrite Hfirst. cbn [readMessage sent consoleErrors].
  unfold afterCalls, messageText, optMessage, Js.orDefault.
  destruct (err_message e) as [m|]; [|reflexivity].
  destruct (String.eqb_spec m "") as [-> | _]; [reflexivity|].
  now destruct (Js.includes "Requested entity was not found" m).
Qed.

Lemma generateStoryShot_standard_primary_failure_witness :
  fst (generateStoryShot
         (Sample.platform (Some "env-key")
            [("gemini-2.5-flash-image",
              Settles 640 (Throw (Sample.apiError 404 "Requested entity was not found.")))])
         "a walk at dusk" Sample.photo false Sample.shot None emptyWorld)
  = Throw (ThrownObj (Error "API_KEY_INVALID")).
Proof.
  destruct (@generateStoryShot_standard_primary_failure
              (Sample.platform (Some "env-key")
                 [("gemini-2.5-flash-image",
                   Settles 640 (Throw (Sample.apiError 404 "Requested entity was not found.")))])
              "a walk at dusk" Sample.photo Sample.shot None emptyWorld
              {| err_name := "ApiError";
                 err_message := Some "Requested entity was not found.";
                 err_status := Some 404%N |}
              eq_refl eq_refl) as [_ H].
  rewrite H. reflexivity.
Defined.

(** C4, as stated, fails on the fallback attempt: the premium attempt is
    refused, the standard attempt made in its place fails with a message
    that contains "entity was not found", and the render call throws that
    error as it is, not [API_KEY_INVALID]. *)
Lemma generateStoryShot_fallback_failure_unclassified :
  let P := Sample.platform None
             [("gemini-3-pro-image-preview",
               Settles 400 (Throw (Sample.apiError 403 "Permission denied")));
              ("gemini-2.5-flash-image",
               Settles 350 (Throw (Sample.apiError 404 "Requested entity was not found.")))] in
  let run := generateStoryShot P "a walk at dusk" Sample.photo true Sample.shot
               (Some "user-key") emptyWorld in
  isModelAccessError (Sample.apiError 403 "Permission denied") = true /\
  Js.includes "entity was not found" "Requested entity was not found." = true /\
  map (fun call => model (call_request call)) (sent (snd run)) =
    ["gemini-3-pro-image-preview"; "gemini-2.5-flash-image"] /\
  fst run = Throw (Sample.apiError 404 "Requested entity was not found.") /\
  fst run <> Throw (ThrownObj (Error "API_KEY_INVALID")).
Proof.
  repeat (split; [reflexivity|]). discriminate.
Qed.

(** On the first attempt the test is for "Requested entity was not found":
    a message that has "entity was not found" without that beginning is
    thrown as it is. *)
Lemma generateStoryShot_other_not_found_unclassified :
  let P := Sample.platform None
             [("gemini-2.5-flash-image",
               Settles 350 (Throw (Sample.apiError 404 "The entity was not found")))] in
  let run := generateStoryShot P "a walk at dusk" Sample.photo false Sample.shot
               (Some "user-key") emptyWorld in
  Js.includes "entity was not found" "The entity was not found" = true /\
  fst run = Throw (Sample.apiError 404 "The entity was not found").
Proof.
  split; reflexivity.
Qed.

(** ** Credentials *)

Lemma resolveApiKey_empty (P : Platform) : resolveApiKey P (Some "") = defaultKey P.
Proof. reflexivity. Qed.

Lemma resolveApiKey_absent (P : Platform) : resolveApiKey P None = defaultKey P.
Proof. reflexivity. Qed.

(** The default, given as the credential, resolves to itself. *)
Lemma resolveApiKey_default (P : Platform) :
  resolveApiKey P (defaultKey P) = defaultKey P.
Proof.
  unfold resolveApiKey, defaultKey, Js.or.
  destruct (Js.truthy (env_API_KEY P)) eqn:Ha.
  - now rewrite !Ha.
  - destruct (Js.truthy (env_GEMINI_API_KEY P)) eqn:Hb.
    + now rewrite !Hb.
    + now rewrite Ha.
Qed.

(** * Further properties of the service layer *)

(** ** The tiered fallback executor, attempt by attempt *)

Section FallbackShape.

Context {S T : Type}.

(** The whole shape of a run: the attempts made are the first tiers of the
    list, in order; the result is the outcome of the last attempt; every
    attempt before the last failed with an access-class error; and an
    access-class error comes out only when no tier is left. *)
Lemma tryModels_traced_shape (requestFactory : string -> M S (Async T))
    (models : list string) (lastError : Thrown) (s : S) (log : list (Attempt T)) :
  exists new : list (Attempt T),
    snd (snd (tryModels (traced requestFactory) models lastError (s, log))) = (log ++ new)%list /\
    map fst new = firstn (List.length new) models /\
    List.length new <= List.length models /\
    (models <> [] -> new <> []) /\
    fst (tryModels (traced requestFactory) models lastError (s, log)) =
      lastAttemptOutcome (Throw lastError) new /\
    (forall i model attempt,
       nth_error new i = Some (model, attempt) ->
       Datatypes.S i < List.length new ->
       exists error, attemptOutcome attempt = Throw error /\
                     isModelAccessError error = true) /\
    (forall i model attempt value,
       nth_error new i = Some (model, attempt) ->
       attemptOutcome attempt = Ok value ->
       List.length new = Datatypes.S i) /\
    (forall error,
       fst (tryModels (traced requestFactory) models lastError (s, log)) = Throw error ->
       isModelAccessError error = true ->
       map fst new = models).
Proof.
  revert lastError s log; induction models as [|model rest IH]; intros lastError s log.
  - exists []. simpl. rewrite app_nil_r.
    split; [reflexivity|]. split; [reflexivity|]. split; [auto with arith|].
    split; [congruence|]. split; [reflexivity|].
    split; [intros [|i] m a H; discriminate|].
    split; [intros [|i] m a v H; discriminate|].
    reflexivity.
  - rewrite tryModels_cons, traced_run. simpl.
    destruct (requestFactory model s) as [r s1] eqn:Hf; simpl.
    destruct (attemptOutcome r) as [value | e] eqn:Hout.
    + exists [(model, r)]. simpl.
      split; [reflexivity|]. split; [reflexivity|]. split; [auto with arith|].
      split; [discriminate|]. split; [now rewrite Hout|].
      split; [intros i m a _ Hlt; exfalso; lia|].
      split; [|discriminate].
      intros [|i] m a v H _; [reflexivity|].
      simpl in H. destruct i; discriminate.
    + destruct (isModelAccessError e) eqn:Hacc.
      * destruct (IH e s1 (log ++ [(model, r)])%list)
          as [new [Hlog [Hmap [Hlen [_ [Hres [Hearly [Hok Hexh]]]]]]]].
        exists ((model, r) :: new). rewrite Hlog, <- app_assoc. simpl.
        split; [reflexivity|]. split; [now rewrite Hmap|]. split; [lia|].
        split; [discriminate|].
        split; [unfold lastAttemptOutcome in *; simpl; now rewrite Hout|].
        split; [|split].
        -- intros [|i] m a H Hlt; simpl in H.
           ++ injection H as <- <-. now exists e.
           ++ apply (Hearly i m a H). lia.
        -- intros [|i] m a v H Hv; simpl in H.
           ++ injection H as <- <-. congruence.
           ++ now rewrite (Hok i m a v H Hv).
        -- intros error Hthrow Herr. now rewrite (Hexh error Hthrow Herr).
      * exists [(model, r)]. simpl.
        split; [reflexivity|]. split; [reflexivity|]. split; [auto with arith|].
        split; [discriminate|]. split; [now rewrite Hout|].
        split; [intros i m a _ Hlt; exfalso; lia|].
        split.
        -- intros [|i] m a v H _; [reflexivity|].
           simpl in H. destruct i; discriminate.
        -- intros error Hthrow Herr. congruence.
Qed.

End FallbackShape.

(** X1: the value of the first attempt that succeeds is the result, and no
    tier after it is tried. *)
Theorem generateWithFallback_first_success
    (S T : Type) (ai : GoogleGenAI) (models : list string)
    (requestFactory : string -> M S (Async T)) (s : S)
    (i : nat) (model : string) (attempt : Result (Async T)) (value : T) :
  let run := generateWithFallback ai models (traced requestFactory) (s, []) in
  nth_error (snd (snd run)) i = Some (model, attempt) ->
  attemptOutcome attempt = Ok value ->
  fst run = Ok value /\
  fst (generateWithFallback ai models requestFactory s) = Ok value /\
  map fst (snd (snd run)) = firstn (Datatypes.S i) models.
Proof.
  cbv zeta. unfold generateWithFallback. intros Hnth Hout.
  destruct (tryModels_traced_shape requestFactory models ThrownUndefined s [])
    as [new [Hlog [Hmap [_ [_ [Hres [_ [Hok _]]]]]]]].
  simpl in Hlog. rewrite Hlog in *.
  pose proof (Hok i model attempt value Hnth Hout) as Hlen.
  assert (Hlast : lastAttemptOutcome (Throw ThrownUndefined) new = Ok value).
  { unfold lastAttemptOutcome.
    destruct (nth_error_split new i Hnth) as [before [after [-> Hi]]].
    rewrite length_app in Hlen. simpl in Hlen.
    destruct after; [|simpl in Hlen; lia].
    rewrite fold_left_app. simpl. exact Hout. }
  split; [now rewrite Hres|]. split.
  - rewrite <- Hlast, <- Hres. symmetry.
    apply (tryModels_traced_erase requestFactory models ThrownUndefined s []).
  - now rewrite Hmap, Hlen.
Qed.

Lemma generateWithFallback_first_success_witness :
  let run := generateWithFallback (newGoogleGenAI (Some "key"))
               ["tier-a"; "tier-c"; "tier-b"] (traced Sample.factory) (0, []) in
  fst run = Ok 1 /\
  fst (generateWithFallback (newGoogleGenAI (Some "key"))
         ["tier-a"; "tier-c"; "tier-b"] Sample.factory 0) = Ok 1 /\
  map fst (snd (snd run)) = ["tier-a"; "tier-c"].
Proof.
  apply (@generateWithFallback_first_success nat nat (newGoogleGenAI (Some "key"))
           ["tier-a"; "tier-c"; "tier-b"] Sample.factory 0 1 "tier-c"
           (Ok (Settles 70 (Ok 1))) 1).
  - reflexivity.
  - reflexivity.
Defined.

(** X2: the tiers are tried in the order of the list, each at most once and
    none skipped, and a tier is tried only after every tier before it has
    failed with an access-class error. *)
Theorem generateWithFallback_attempts_in_order
    (S T : Type) (ai : GoogleGenAI) (models : list string)
    (requestFactory : string -> M S (Async T)) (s : S) :
  let log := snd (snd (generateWithFallback ai models (traced requestFactory) (s, []))) in
  map fst log = firstn (List.length log) models /\
  List.length log <= List.length models /\
  (models <> [] -> log <> []) /\
  forall i model attempt,
    nth_error log i = Some (model, attempt) ->
    Datatypes.S i < List.length log ->
    exists error, attemptOutcome attempt = Throw error /\
                  isModelAccessError error = true.
Proof.
  cbv zeta. unfold generateWithFallback.
  destruct (tryModels_traced_shape requestFactory models ThrownUndefined s [])
    as [new [Hlog [Hmap [Hlen [Hne [_ [Hearly _]]]]]]].
  simpl in Hlog. rewrite Hlog. auto.
Qed.

(** X3: the result of the executor is the outcome of the last attempt it
    made; with an empty list of tiers it makes none and throws
    [undefined]. *)
Theorem generateWithFallback_result_is_last_attempt
    (S T : Type) (ai : GoogleGenAI) (models : list string)
    (requestFactory : string -> M S (Async T)) (s : S) :
  let run := generateWithFallback ai models (traced requestFactory) (s, []) in
  fst run = lastAttemptOutcome (Throw ThrownUndefined) (snd (snd run)) /\
  fst (generateWithFallback ai models requestFactory s) = fst run /\
  (models = [] -> fst run = Throw ThrownUndefined /\ snd run = (s, [])).
Proof.
  cbv zeta. unfold generateWithFallback.
  destruct (tryModels_traced_shape requestFactory models ThrownUndefined s [])
    as [new [Hlog [_ [_ [_ [Hres _]]]]]].
  simpl in Hlog. rewrite Hlog. split; [exact Hres|]. split.
  - symmetry. apply (tryModels_traced_erase requestFactory models ThrownUndefined s []).
  - intros ->. split; reflexivity.
Qed.

Lemma generateWithFallback_result_is_last_attempt_witness :
  generateWithFallback (newGoogleGenAI (Some "key")) [] (traced Sample.factory) (0, [])
  = (Throw ThrownUndefined, (0, [])).
Proof.
  destruct (@generateWithFallback_result_is_last_attempt nat nat
              (newGoogleGenAI (Some "key")) [] Sample.factory 0) as [_ [_ H]].
  destruct (H eq_refl) as [H1 H2].
  apply injective_projections; assumption.
Defined.

(** X4: an access-class error comes out of the executor only when every
    tier of the list has been tried. *)
Theorem generateWithFallback_access_error_after_all_tiers
    (S T : Type) (ai : GoogleGenAI) (models : list string)
    (requestFactory : string -> M S (Async T)) (s : S) (error : Thrown) :
  let run := generateWithFallback ai models (traced requestFactory) (s, []) in
  fst run = Throw error ->
  isModelAccessError error = true ->
  map fst (snd (snd run)) = models.
Proof.
  cbv zeta. unfold generateWithFallback. intros Hthrow Hacc.
  destruct (tryModels_traced_shape requestFactory models ThrownUndefined s [])
    as [new [Hlog [_ [_ [_ [_ [_ [_ Hexh]]]]]]]].
  simpl in Hlog. rewrite Hlog. exact (Hexh error Hthrow Hacc).
Qed.

Lemma generateWithFallback_access_error_after_all_tiers_witness :
  map fst (snd (snd (generateWithFallback (newGoogleGenAI (Some "key"))
                       ["tier-a"; "tier-a"] (traced Sample.factory) (0, []))))
  = ["tier-a"; "tier-a"].
Proof.
  apply (@generateWithFallback_access_error_after_all_tiers nat nat
           (newGoogleGenAI (Some "key")) ["tier-a"; "tier-a"] Sample.factory 0
           (Sample.apiError 403 "Permission denied")).
  - reflexivity.
  - reflexivity.
Defined.

Lemma generateWithFallback_attempts_in_order_witness :
  let log := snd (snd (generateWithFallback (newGoogleGenAI (Some "key"))
                         ["tier-a"; "tier-c"; "tier-b"] (traced Sample.factory) (0, []))) in
  map fst log = ["tier-a"; "tier-c"] /\ log <> [].
Proof.
  destruct (@generateWithFallback_attempts_in_order nat nat (newGoogleGenAI (Some "key"))
              ["tier-a"; "tier-c"; "tier-b"] Sample.factory 0) as [Hmap [_ [Hne _]]].
  split.
  - exact Hmap.
  - apply Hne. discriminate.
Defined.

(** ** The deadline wrapper, callback by callback *)

Lemma wrapperStep_disarmed (T : Type) (w : Wrapper T) (ev : Event T) :
  timerArmed w = false -> timerArmed (wrapperStep w ev) = false.
Proof.
  intros H. destruct ev; simpl; try reflexivity. now rewrite H.
Qed.

Lemma fold_wrapperStep_disarmed (T : Type) (events : list (Event T)) (w : Wrapper T) :
  timerArmed w = false -> timerArmed (fold_left wrapperStep events w) = false.
Proof.
  revert w; induction events as [|ev events IH]; intros w H; simpl.
  - exact H.
  - apply IH. now apply wrapperStep_disarmed.
Qed.

(** X5: the promise built by [withTimeout] settles once: the first of its
    callbacks to run decides the result, whatever callbacks run later and in
    whatever order, and the timer is off from then on. *)
Theorem runWrapper_first_callback_decides (T : Type) (ev : Event T)
    (later : list (Event T)) :
  settled (runWrapper (ev :: later)) = Some (eventOutcome ev) /\
  timerArmed (runWrapper (ev :: later)) = false.
Proof.
  unfold runWrapper. cbn [fold_left]. split.
  - apply fold_wrapperStep_settled. now destruct ev.
  - apply fold_wrapperStep_disarmed. now destruct ev.
Qed.

(** ** The key validator, case by case *)

(** The validator in closed form. *)
Lemma validateApiKey_run (P : Platform) (apiKey : option string) (w : World) :
  let premium := callOf P apiKey (probe "gemini-2.5-pro") in
  let standard := callOf P apiKey (probe "gemini-2.5-flash") in
  validateApiKey P apiKey w =
  if Js.truthy (resolveApiKey P apiKey) then
    match withTimeout (service P (sent w) premium) VALIDATION_TIMEOUT_MS with
    | Ok _ => (Ok {| valid := true; proAvailable := true |}, afterCalls w [premium])
    | Throw error =>
        if isModelAccessError error then
          match withTimeout (service P (sent w ++ [premium])%list standard)
                  VALIDATION_TIMEOUT_MS with
          | Ok _ =>
              (Ok {| valid := true; proAvailable := false |},
               afterCalls w [premium; standard])
          | Throw second =>
              (Ok {| valid := false; proAvailable := false |},
               logged (afterCalls w [premium; standard])
                 "API Key Validation Error:" second)
          end
        else
          (Ok {| valid := false; proAvailable := false |},
           logged (afterCalls w [premium]) "API Key Validation Error:" error)
    end
  else (Ok {| valid := false; proAvailable := false |}, w).
Proof.
  intros premium standard. unfold validateApiKey.
  destruct (Js.truthy (resolveApiKey P apiKey)); [|reflexivity].
  unfold tryCatch, bind, generateContent, lift, ret, throw, console_error.
  cbn [negb nth PLAN_MODELS client_apiKey].
  change {| call_apiKey := resolveApiKey P apiKey;
            call_request := probe "gemini-2.5-pro" |} with premium.
  destruct (withTimeout (service P (sent w) premium) VALIDATION_TIMEOUT_MS)
    as [first | error]; [reflexivity|].
  destruct (isModelAccessError error); cbn [negb sent consoleErrors]; [|reflexivity].
  change {| call_apiKey := resolveApiKey P apiKey;
            call_request := probe "gemini-2.5-flash" |} with standard.
  destruct (withTimeout (service P (sent w ++ [premium])%list standard)
              VALIDATION_TIMEOUT_MS) as [second | error2];
    unfold afterCalls, logged; cbn [sent consoleErrors];
    now rewrite <- app_assoc.
Qed.

(** X6: the validator never throws, whatever the service does, and it never
    reports the premium tier available for a key it reports invalid. *)
Theorem validateApiKey_never_throws (P : Platform) (apiKey : option string) (w : World) :
  exists verdict : Validation,
    fst (validateApiKey P apiKey w) = Ok verdict /\
    (proAvailable verdict = true -> valid verdict = true).
Proof.
  rewrite validateApiKey_run.
  destruct (Js.truthy (resolveApiKey P apiKey)); [|eexists; split; [reflexivity | discriminate]].
  destruct (withTimeout _ VALIDATION_TIMEOUT_MS) as [first | error];
    [eexists; split; reflexivity|].
  destruct (isModelAccessError error);
    [|eexists; split; [reflexivity | discriminate]].
  destruct (withTimeout _ VALIDATION_TIMEOUT_MS) as [second | error2];
    eexists; (split; [reflexivity | discriminate]).
Qed.

(** X7: the validator sends at most two calls, after those already sent: the
    probe of the premium text model, then the probe of the standard one,
    both with the resolved key; it sends none exactly when no key
    resolves. *)
Theorem validateApiKey_probes (P : Platform) (apiKey : option string) (w : World) :
  let premium := callOf P apiKey (probe "gemini-2.5-pro") in
  let standard := callOf P apiKey (probe "gemini-2.5-flash") in
  exists n : nat,
    n <= 2 /\
    sent (snd (validateApiKey P apiKey w)) = (sent w ++ firstn n [premium; standard])%list /\
    (n = 0 <-> Js.truthy (resolveApiKey P apiKey) = false).
Proof.
  intros premium standard. rewrite validateApiKey_run. fold premium standard.
  destruct (Js.truthy (resolveApiKey P apiKey)).
  - destruct (withTimeout _ VALIDATION_TIMEOUT_MS) as [first | error].
    + exists 1. repeat split; auto; discriminate.
    + destruct (isModelAccessError error).
      * destruct (withTimeout _ VALIDATION_TIMEOUT_MS) as [second | error2];
          exists 2; repeat split; auto; discriminate.
      * exists 1. repeat split; auto; discriminate.
  - exists 0. simpl. rewrite app_nil_r. repeat split; auto.
Qed.

(** X8: the verdict, read off the two probes: the premium tier is reported
    available exactly when a key resolves and the premium probe succeeds
    within the validation deadline; the key is reported valid without it
    exactly when the premium probe fails with an access-class error and the
    standard probe succeeds. *)
Theorem validateApiKey_verdict (P : Platform) (apiKey : option string) (w : World)
    (verdict : Validation) :
  let premium := callOf P apiKey (probe "gemini-2.5-pro") in
  let standard := callOf P apiKey (probe "gemini-2.5-flash") in
  fst (validateApiKey P apiKey w) = Ok verdict ->
  (proAvailable verdict = true <->
     Js.truthy (resolveApiKey P apiKey) = true /\
     exists response,
       withTimeout (service P (sent w) premium) VALIDATION_TIMEOUT_MS = Ok response) /\
  (valid verdict = true /\ proAvailable verdict = false <->
     Js.truthy (resolveApiKey P apiKey) = true /\
     exists error response,
       withTimeout (service P (sent w) premium) VALIDATION_TIMEOUT_MS = Throw error /\
       isModelAccessError error = true /\
       withTimeout (service P (sent w ++ [premium])%list standard) VALIDATION_TIMEOUT_MS
         = Ok response).
Proof.
  intros premium standard. rewrite validateApiKey_run. fold premium standard.
  destruct (Js.truthy (resolveApiKey P apiKey)).
  - destruct (withTimeout (service P (sent w) premium) VALIDATION_TIMEOUT_MS)
      as [first | error].
    + intros [= <-]. simpl. split; split.
      * intros _. split; [reflexivity | now exists first].
      * reflexivity.
      * intros [_ H]. discriminate.
      * intros [_ [e [r [H _]]]]. discriminate.
    + destruct (isModelAccessError error) eqn:Hacc.
      * destruct (withTimeout (service P (sent w ++ [premium])%list standard)
                    VALIDATION_TIMEOUT_MS) as [second | error2].
        -- intros [= <-]. simpl. split; split.
           ++ discriminate.
           ++ intros [_ [r H]]. discriminate.
           ++ intros _. split; [reflexivity|]. now exists error, second.
           ++ intros _. now split.
        -- intros [= <-]. simpl. split; split.
           ++ discriminate.
           ++ intros [_ [r H]]. discriminate.
           ++ intros [H _]. discriminate.
           ++ intros [_ [e [r [[= <-] [_ H]]]]]. discriminate.
      * intros [= <-]. simpl. split; split.
        -- discriminate.
        -- intros [_ [r H]]. discriminate.
        -- intros [H _]. discriminate.
        -- intros [_ [e [r [[= <-] [H _]]]]]. congruence.
  - intros [= <-]. simpl. split; split.
    + discriminate.
    + intros [H _]. discriminate.
    + intros [H _]. discriminate.
    + intros [H _]. discriminate.
Qed.

Lemma validateApiKey_verdict_witness :
  Js.truthy (Some "user-key") = true /\
  exists response,
    withTimeout (Settles 250 (Ok (Sample.textResponse (Some "ok")))) VALIDATION_TIMEOUT_MS
      = Ok response.
Proof.
  apply (@validateApiKey_verdict
           (Sample.platform None
              [("gemini-2.5-pro", Settles 250 (Ok (Sample.textResponse (Some "ok"))))])
           (Some "user-key") emptyWorld {| valid := true; proAvailable := true |}
           eq_refl).
  reflexivity.
Defined.

(** X9: a premium probe that fails with an error that is not access-class
    ends the validation: the key is reported invalid, the standard model is
    not probed, and the error is written to the console. *)
Theorem validateApiKey_hard_failure (P : Platform) (apiKey : option string)
    (w : World) (error : Thrown) :
  let premium := callOf P apiKey (probe "gemini-2.5-pro") in
  Js.truthy (resolveApiKey P apiKey) = true ->
  withTimeout (service P (sent w) premium) VALIDATION_TIMEOUT_MS = Throw error ->
  isModelAccessError error = false ->
  validateApiKey P apiKey w =
    (Ok {| valid := false; proAvailable := false |},
     logged (afterCalls w [premium]) "API Key Validation Error:" error).
Proof.
  intros premium Hkey Hfirst Hacc.
  rewrite validateApiKey_run. fold premium. now rewrite Hkey, Hfirst, Hacc.
Qed.

Lemma validateApiKey_hard_failure_witness :
  fst (validateApiKey
         (Sample.platform None
            [("gemini-2.5-pro", Settles 90 (Throw (Sample.apiError 429 "Quota exceeded")));
             ("gemini-2.5-flash", Settles 250 (Ok (Sample.textResponse (Some "ok"))))])
         (Some "user-key") emptyWorld)
  = Ok {| valid := false; proAvailable := false |}.
Proof.
  rewrite (@validateApiKey_hard_failure
             (Sample.platform None
                [("gemini-2.5-pro", Settles 90 (Throw (Sample.apiError 429 "Quota exceeded")));
                 ("gemini-2.5-flash", Settles 250 (Ok (Sample.textResponse (Some "ok"))))])
             (Some "user-key") emptyWorld (Sample.apiError 429 "Quota exceeded")
             eq_refl eq_refl eq_refl).
  reflexivity.
Defined.

(** ** The plan calls, call by call *)

Lemma generateContent_run (P : Platform) (ai : GoogleGenAI)
    (params : GenerateContentParameters) (w : World) :
  generateContent P ai params w =
  (Ok (service P (sent w) {| call_apiKey := client_apiKey ai; call_request := params |}),
   afterCalls w [{| call_apiKey := client_apiKey ai; call_request := params |}]).
Proof. reflexivity. Qed.

Lemma afterCalls_nil (w : World) : afterCalls w [] = w.
Proof. unfold afterCalls. rewrite app_nil_r. now destruct w. Qed.

Lemma afterCalls_app (w : World) (first later : list Call) :
  afterCalls (afterCalls w first) later = afterCalls w (first ++ later)%list.
Proof. unfold afterCalls. cbn [sent consoleErrors]. now rewrite app_assoc. Qed.

Section PlanTiers.

Variable P : Platform.
Variable ai : GoogleGenAI.
Variable request : string -> GenerateContentParameters.

(** The call the client [ai] sends for the request of a model. *)
Let sentFor (model : string) : Call :=
  {| call_apiKey := client_apiKey ai; call_request := request model |}.

(** The loop over the tiers, run on the service: it sends one call per tier
    tried, for the first tiers of the list, and writes nothing to the
    console. *)
Lemma tryModels_generateContent_world (models : list string) (lastError : Thrown)
    (w : World) :
  exists n : nat,
    n <= List.length models /\
    snd (tryModels (fun model => generateContent P ai (request model)) models lastError w)
      = afterCalls w (map sentFor (firstn n models)).
Proof.
  revert lastError w; induction models as [|model rest IH]; intros lastError w.
  - exists 0. split; [auto|]. simpl. now rewrite afterCalls_nil.
  - rewrite tryModels_cons. cbv beta. rewrite generateContent_run. cbn [fst snd].
    fold (sentFor model).
    destruct (attemptOutcome (Ok (service P (sent w) (sentFor model)))) as [value | e].
    + exists 1. split; [simpl; lia | reflexivity].
    + destruct (isModelAccessError e).
      * destruct (IH e (afterCalls w [sentFor model])) as [n [Hn Hw]].
        exists (Datatypes.S n). split; [simpl; lia|].
        rewrite Hw, afterCalls_app. reflexivity.
      * exists 1. split; [simpl; lia | reflexivity].
Qed.

(** The two tiers of the plan calls when the first is refused and the second
    answers. *)
Lemma planTiers_demotion (w : World) (error : Thrown)
    (response : GenerateContentResponse) :
  withTimeout (service P (sent w) (sentFor "gemini-2.5-pro")) REQUEST_TIMEOUT_MS
    = Throw error ->
  isModelAccessError error = true ->
  withTimeout (service P (sent w ++ [sentFor "gemini-2.5-pro"])%list
                 (sentFor "gemini-2.5-flash")) REQUEST_TIMEOUT_MS
    = Ok response ->
  generateWithFallback ai PLAN_MODELS (fun model => generateContent P ai (request model)) w
    = (Ok response, afterCalls w [sentFor "gemini-2.5-pro"; sentFor "gemini-2.5-flash"]).
Proof.
  intros Hfirst Hacc Hsecond.
  unfold generateWithFallback, PLAN_MODELS.
  rewrite tryModels_cons. cbv beta. rewrite generateContent_run.
  cbn [fst snd attemptOutcome].
  fold (sentFor "gemini-2.5-pro"). rewrite Hfirst, Hacc.
  rewrite tryModels_cons. cbv beta. rewrite generateContent_run.
  cbn [fst snd attemptOutcome].
  fold (sentFor "gemini-2.5-flash").
  change (sent (afterCalls w [sentFor "gemini-2.5-pro"]))
    with (sent w ++ [sentFor "gemini-2.5-pro"])%list.
  rewrite Hsecond, afterCalls_app. reflexivity.
Qed.

End PlanTiers.

Lemma getAI_ok (P : Platform) (apiKey : option string) (ai : GoogleGenAI) :
  getAI P apiKey = Ok ai ->
  client_apiKey ai = resolveApiKey P apiKey /\ Js.truthy (resolveApiKey P apiKey) = true.
Proof.
  unfold getAI. destruct (Js.truthy (resolveApiKey P apiKey)); simpl; [|discriminate].
  intros [= <-]. now split.
Qed.

Lemma getAI_truthy (P : Platform) (apiKey : option string) :
  Js.truthy (resolveApiKey P apiKey) = true ->
  getAI P apiKey = Ok (newGoogleGenAI (resolveApiKey P apiKey)).
Proof. intros H. unfold getAI. now rewrite H. Qed.

(** The calls of a run of the plan tiers, in terms of the credential. *)
Lemma generateWithFallback_sendsTiers (P : Platform) (apiKey : option string)
    (ai : GoogleGenAI) (request : string -> GenerateContentParameters) (w : World) :
  getAI P apiKey = Ok ai ->
  sendsTiers P apiKey request w
    (snd (generateWithFallback ai PLAN_MODELS
            (fun model => generateContent P ai (request model)) w)).
Proof.
  intros Hai. destruct (getAI_ok _ _ Hai) as [Hkey _].
  unfold generateWithFallback.
  destruct (tryModels_generateContent_world P ai request PLAN_MODELS ThrownUndefined w)
    as [n [Hn Hw]].
  exists n. rewrite Hw. unfold afterCalls, callOf. cbn [sent consoleErrors].
  rewrite Hkey. split; [exact Hn | split; reflexivity].
Qed.

Lemma sendsTiers_refl (P : Platform) (apiKey : option string)
    (request : string -> GenerateContentParameters) (w : World) :
  sendsTiers P apiKey request w w.
Proof.
  exists 0. simpl. rewrite app_nil_r. repeat split. lia.
Qed.

(** X10: each of the three plan calls sends at most two calls, for the plan
    models in their order of preference and with the resolved key, after the
    calls already sent, and writes nothing to the console. *)
Theorem plan_calls_send_tiers (P : Platform) (apiKey : option string) (w : World) :
  (forall image,
     sendsTiers P apiKey (categoriesRequest image) w
       (snd (suggestNarrativeCategories P image apiKey w))) /\
  (forall image mode category zoomDirection,
     sendsTiers P apiKey (planRequest image mode category zoomDirection) w
       (snd (analyzeImageToStoryboardPlan P image mode category zoomDirection apiKey w))) /\
  (forall plan mode,
     sendsTiers P apiKey (editRequest plan) w
       (snd (updatePromptsWithEdits P plan mode apiKey w))).
Proof.
  split; [|split]; intros.
  - unfold suggestNarrativeCategories, bind, lift.
    destruct (getAI P apiKey) as [ai | e] eqn:Hai; [|apply sendsTiers_refl].
    pose proof (generateWithFallback_sendsTiers P apiKey (categoriesRequest image) w Hai) as H.
    destruct (generateWithFallback ai PLAN_MODELS _ w) as [[response | e] w']; [|exact H].
    destruct (response_text response) as [text|]; [|exact H].
    destruct (text =? ""); exact H.
  - unfold analyzeImageToStoryboardPlan, bind, lift.
    destruct (getAI P apiKey) as [ai | e] eqn:Hai; [|apply sendsTiers_refl].
    pose proof (generateWithFallback_sendsTiers P apiKey
                  (planRequest image mode category zoomDirection) w Hai) as H.
    destruct (generateWithFallback ai PLAN_MODELS _ w) as [[response | e] w']; [|exact H].
    destruct (response_text response) as [text|]; [|exact H].
    destruct (text =? ""); exact H.
  - unfold updatePromptsWithEdits, bind, lift.
    destruct (getAI P apiKey) as [ai | e] eqn:Hai; [|apply sendsTiers_refl].
    pose proof (generateWithFallback_sendsTiers P apiKey (editRequest plan) w Hai) as H.
    destruct (generateWithFallback ai PLAN_MODELS _ w) as [[response | e] w']; [|exact H].
    destruct (response_text response) as [text|]; [|exact H].
    destruct (text =? ""); exact H.
Qed.

(** X11: a plan generation whose premium tier is refused with an
    access-class error and whose standard tier answers with a text returns
    what [JSON.parse] makes of that text, a thrown parse error included,
    after exactly these two calls. *)
Theorem analyzeImageToStoryboardPlan_after_demotion (P : Platform)
    (image : string) (mode : AppMode) (category : option string)
    (zoomDirection : ZoomDirection) (apiKey : option string) (w : World)
    (error : Thrown) (response : GenerateContentResponse) (text : string) :
  let premium := callOf P apiKey
                   (planRequest image mode category zoomDirection "gemini-2.5-pro") in
  let standard := callOf P apiKey
                    (planRequest image mode category zoomDirection "gemini-2.5-flash") in
  Js.truthy (resolveApiKey P apiKey) = true ->
  withTimeout (service P (sent w) premium) REQUEST_TIMEOUT_MS = Throw error ->
  isModelAccessError error = true ->
  withTimeout (service P (sent w ++ [premium])%list standard) REQUEST_TIMEOUT_MS
    = Ok response ->
  response_text response = Some text ->
  text <> "" ->
  analyzeImageToStoryboardPlan P image mode category zoomDirection apiKey w =
    (JSON_parse P text, afterCalls w [premium; standard]).
Proof.
  intros premium standard Hkey Hfirst Hacc Hsecond Htext Hne.
  unfold analyzeImageToStoryboardPlan, bind, lift.
  rewrite (getAI_truthy _ _ Hkey).
  rewrite (planTiers_demotion P (newGoogleGenAI (resolveApiKey P apiKey))
             (planRequest image mode category zoomDirection) w Hfirst Hacc Hsecond).
  rewrite Htext. apply String.eqb_neq in Hne. now rewrite Hne.
Qed.

Lemma analyzeImageToStoryboardPlan_after_demotion_witness :
  fst (analyzeImageToStoryboardPlan
         (Sample.platform None
            [("gemini-2.5-pro", Settles 500 (Throw (Sample.apiError 403 "permission denied")));
             ("gemini-2.5-flash", Settles 7000 (Ok (Sample.textResponse (Some "{}"))))])
         Sample.photo shorts None ZoomIn (Some "user-key") emptyWorld)
  = Ok (JString "{}").
Proof.
  rewrite (@analyzeImageToStoryboardPlan_after_demotion
             (Sample.platform None
                [("gemini-2.5-pro", Settles 500 (Throw (Sample.apiError 403 "permission denied")));
                 ("gemini-2.5-flash", Settles 7000 (Ok (Sample.textResponse (Some "{}"))))])
             Sample.photo shorts None ZoomIn (Some "user-key") emptyWorld
             (Sample.apiError 403 "permission denied") (Sample.textResponse (Some "{}")) "{}"
             eq_refl eq_refl eq_refl eq_refl eq_refl).
  - reflexivity.
  - discriminate.
Defined.

(** X12: the category suggestion falls back on its default list for an
    empty text only: a failure of the tiers is thrown on as it is, and a
    text that is not empty is handed to [JSON.parse], whose result, value or
    thrown error, is the result. *)
Theorem suggestNarrativeCategories_otherwise (P : Platform) (image : string)
    (apiKey : option string) (w w' : World) (ai : GoogleGenAI)
    (outcome : Result GenerateContentResponse) :
  getAI P apiKey = Ok ai ->
  generateWithFallback ai PLAN_MODELS
    (fun model => generateContent P ai (categoriesRequest image model)) w
    = (outcome, w') ->
  (forall error, outcome = Throw error ->
     suggestNarrativeCategories P image apiKey w = (Throw error, w')) /\
  (forall response text,
     outcome = Ok response -> response_text response = Some text -> text <> "" ->
     suggestNarrativeCategories P image apiKey w = (JSON_parse P text, w')).
Proof.
  intros Hai Hrun. unfold suggestNarrativeCategories, bind, lift.
  rewrite Hai, Hrun. split.
  - now intros error ->.
  - intros response text -> Htext Hne. rewrite Htext.
    apply String.eqb_neq in Hne. now rewrite Hne.
Qed.

Lemma suggestNarrativeCategories_otherwise_witness :
  suggestNarrativeCategories
    (Sample.platform None
       [("gemini-2.5-pro", Settles 90 (Throw (Sample.apiError 429 "Quota exceeded")))])
    Sample.photo (Some "user-key") emptyWorld
  = (Throw (Sample.apiError 429 "Quota exceeded"),
     afterCalls emptyWorld
       [callOf (Sample.platform None
                  [("gemini-2.5-pro", Settles 90 (Throw (Sample.apiError 429 "Quota exceeded")))])
          (Some "user-key") (categoriesRequest Sample.photo "gemini-2.5-pro")]).
Proof.
  apply (@suggestNarrativeCategories_otherwise
           (Sample.platform None
              [("gemini-2.5-pro", Settles 90 (Throw (Sample.apiError 429 "Quota exceeded")))])
           Sample.photo (Some "user-key") emptyWorld _ (newGoogleGenAI (Some "user-key"))
           (Throw (Sample.apiError 429 "Quota exceeded")) eq_refl eq_refl).
  reflexivity.
Defined.

(** ** The image render call, case by case *)

(** An error object that is not access-class does not carry the message of
    the deadline wrapper. *)
Lemma not_access_not_timeout (e : ErrorObj) (message : string) :
  isModelAccessError (ThrownObj e) = false ->
  err_message e = Some message ->
  (message =? "REQUEST_TIMEOUT") = false.
Proof.
  intros Hacc Hm. destruct (String.eqb_spec message "REQUEST_TIMEOUT") as [-> | _];
    [|reflexivity].
  unfold isModelAccessError, messageText, optMessage in Hacc. rewrite Hm in Hacc.
  discriminate.
Qed.

(** The render call in closed form. *)
Lemma generateStoryShot_run (P : Platform) (prompt image : string) (isPro : bool)
    (shotConfig : ShotConfig) (apiKey : option string) (w : World) :
  let first := callOf P apiKey (shotRequest prompt image isPro shotConfig) in
  let second := callOf P apiKey (shotFallbackRequest prompt image shotConfig) in
  generateStoryShot P prompt image isPro shotConfig apiKey w =
  if Js.truthy (resolveApiKey P apiKey) then
    match withTimeout (service P (sent w) first) REQUEST_TIMEOUT_MS with
    | Ok response =>
        (match firstInlineImage (firstCandidateParts response) with
         | Some url => Ok url
         | None => Throw (ThrownObj (Error "이미지 생성 실패"))
         end,
         afterCalls w [first])
    | Throw error =>
        if isPro && isModelAccessError error then
          (match withTimeout (service P (sent w ++ [first])%list second)
                   REQUEST_TIMEOUT_MS with
           | Throw failure => Throw failure
           | Ok response =>
               match firstInlineImage (firstCandidateParts response) with
               | Some url => Ok url
               | None => classified error
               end
           end,
           afterCalls w [first; second])
        else (classified error, afterCalls w [first])
    end
  else (Throw (ThrownObj (Error "API_KEY_MISSING")), w).
Proof.
  intros first second.
  destruct (Js.truthy (resolveApiKey P apiKey)) eqn:Hkey;
    [|unfold generateStoryShot; now rewrite Hkey].
  destruct (withTimeout (service P (sent w) first) REQUEST_TIMEOUT_MS)
    as [response | error] eqn:Hfirst.
  - unfold generateStoryShot. rewrite Hkey.
    unfold tryCatch, bind, generateContent, lift, ret, throw.
    cbn [negb client_apiKey].
    change {| call_apiKey := resolveApiKey P apiKey;
              call_request := shotRequest prompt image isPro shotConfig |} with first.
    rewrite Hfirst.
    now destruct (firstInlineImage (firstCandidateParts response)).
  - destruct isPro; cbn [andb].
    + destruct (isModelAccessError error) eqn:Hacc.
      * apply (generateStoryShot_demoted P prompt image shotConfig apiKey w Hkey Hfirst Hacc).
      * unfold generateStoryShot. rewrite Hkey.
        unfold tryCatch, bind, generateContent, lift, ret, throw.
        cbn [negb client_apiKey].
        change {| call_apiKey := resolveApiKey P apiKey;
                  call_request := shotRequest prompt image true shotConfig |} with first.
        rewrite Hfirst, Hacc.
        unfold classified. destruct error as [|e]; [reflexivity|].
        cbn [readMessage]. destruct (err_message e) as [message|] eqn:Hm.
        -- rewrite (not_access_not_timeout e Hacc Hm).
           now destruct (Js.includes "Requested entity was not found" message).
        -- reflexivity.
    + unfold generateStoryShot. rewrite Hkey.
      unfold tryCatch, bind, generateContent, lift, ret, throw.
      cbn [negb client_apiKey].
      change {| call_apiKey := resolveApiKey P apiKey;
                call_request := shotRequest prompt image false shotConfig |} with first.
      rewrite Hfirst.
      unfold classified. destruct (readMessage error) as [message | typeError];
        [|reflexivity].
      now destruct (match message with
                    | Some m => Js.includes "Requested entity was not found" m
                    | None => false
                    end).
Qed.

Lemma firstInlineImage_data_url (parts : list Part) (url : string) :
  firstInlineImage parts = Some url ->
  exists data, url = "data:image/png;base64," ++ data.
Proof.
  induction parts as [|part rest IH]; simpl; [discriminate|].
  destruct (part_inlineData part) as [inlineData|]; [|exact IH].
  intros [= <-]. now exists (spliced (inline_data inlineData)).
Qed.

Lemma classified_throws (error : Thrown) (url : string) : classified error <> Ok url.
Proof.
  unfold classified. destruct (readMessage error) as [message | typeError];
    [|discriminate].
  destruct (match message with
            | Some m => Js.includes "Requested entity was not found" m
            | None => false
            end); discriminate.
Qed.

(** X13: the render call sends no call, one call or two: the request for
    the model asked for, then, only when the premium model was asked for,
    the request for the standard model; it writes nothing to the console. *)
Theorem generateStoryShot_at_most_two_calls (P : Platform) (prompt image : string)
    (isPro : bool) (shotConfig : ShotConfig) (apiKey : option string) (w : World) :
  let first := callOf P apiKey (shotRequest prompt image isPro shotConfig) in
  let second := callOf P apiKey (shotFallbackRequest prompt image shotConfig) in
  let w' := snd (generateStoryShot P prompt image isPro shotConfig apiKey w) in
  consoleErrors w' = consoleErrors w /\
  (sent w' = sent w \/
   sent w' = (sent w ++ [first])%list \/
   (isPro = true /\ sent w' = (sent w ++ [first; second])%list)).
Proof.
  intros first second. cbv zeta. rewrite generateStoryShot_run. fold first second.
  destruct (Js.truthy (resolveApiKey P apiKey)); [|now split; [|left]].
  destruct (withTimeout (service P (sent w) first) REQUEST_TIMEOUT_MS)
    as [response | error].
  - split; [reflexivity | right; left; reflexivity].
  - destruct isPro; cbn [andb].
    + destruct (isModelAccessError error).
      * split; [reflexivity | right; right; now split].
      * split; [reflexivity | right; left; reflexivity].
    + split; [reflexivity | right; left; reflexivity].
Qed.

(** X14: whatever the service answers, a value returned by the render call
    is a data URL of type image/png in base64. *)
Theorem generateStoryShot_returns_data_url (P : Platform) (prompt image : string)
    (isPro : bool) (shotConfig : ShotConfig) (apiKey : option string) (w : World)
    (url : string) :
  fst (generateStoryShot P prompt image isPro shotConfig apiKey w) = Ok url ->
  exists data, url = "data:image/png;base64," ++ data.
Proof.
  rewrite generateStoryShot_run.
  destruct (Js.truthy (resolveApiKey P apiKey)); [|discriminate].
  destruct (withTimeout _ REQUEST_TIMEOUT_MS) as [response | error].
  - cbn [fst].
    destruct (firstInlineImage (firstCandidateParts response)) as [u|] eqn:Hu;
      [|discriminate].
    intros [= <-]. exact (firstInlineImage_data_url _ Hu).
  - destruct (isPro && isModelAccessError error); cbn [fst].
    + destruct (withTimeout _ REQUEST_TIMEOUT_MS) as [response | failure];
        [|discriminate].
      destruct (firstInlineImage (firstCandidateParts response)) as [u|] eqn:Hu.
      * intros [= <-]. exact (firstInlineImage_data_url _ Hu).
      * intros H. now apply classified_throws in H.
    + intros H. now apply classified_throws in H.
Qed.

Lemma generateStoryShot_returns_data_url_witness :
  exists data, "data:image/png;base64,UE5H" = "data:image/png;base64," ++ data.
Proof.
  apply (@generateStoryShot_returns_data_url
           (Sample.platform None
              [("gemini-2.5-flash-image", Settles 9000 (Ok (Sample.imageResponse "UE5H")))])
           "a walk at dusk" Sample.photo false Sample.shot (Some "user-key") emptyWorld).
  reflexivity.
Defined.

(** X15: when the first attempt is answered within the deadline, the answer
    decides alone, after this one call: the data URL of the first part with
    inline data, or, when no part has any, the error of message
    "이미지 생성 실패"; the premium model asked for makes no difference, and
    no second attempt is made. *)
Theorem generateStoryShot_first_response (P : Platform) (prompt image : string)
    (isPro : bool) (shotConfig : ShotConfig) (apiKey : option string) (w : World)
    (response : GenerateContentResponse) :
  let first := callOf P apiKey (shotRequest prompt image isPro shotConfig) in
  Js.truthy (resolveApiKey P apiKey) = true ->
  withTimeout (service P (sent w) first) REQUEST_TIMEOUT_MS = Ok response ->
  generateStoryShot P prompt image isPro shotConfig apiKey w =
    (match firstInlineImage (firstCandidateParts response) with
     | Some url => Ok url
     | None => Throw (ThrownObj (Error "이미지 생성 실패"))
     end,
     afterCalls w [first]).
Proof.
  intros first Hkey Hfirst. rewrite generateStoryShot_run. fold first.
  now rewrite Hkey, Hfirst.
Qed.

Lemma generateStoryShot_first_response_witness :
  fst (generateStoryShot
         (Sample.platform None
            [("gemini-3-pro-image-preview",
              Settles 8000 (Ok (Sample.textResponse (Some "no image today"))))])
         "a walk at dusk" Sample.photo true Sample.shot (Some "user-key") emptyWorld)
  = Throw (ThrownObj (Error "이미지 생성 실패")).
Proof.
  rewrite (@generateStoryShot_first_response
             (Sample.platform None
                [("gemini-3-pro-image-preview",
                  Settles 8000 (Ok (Sample.textResponse (Some "no image today"))))])
             "a walk at dusk" Sample.photo true Sample.shot (Some "user-key") emptyWorld
             (Sample.textResponse (Some "no image today")) eq_refl eq_refl).
  reflexivity.
Defined.

(** X16: a premium attempt that fails with an error object that is not
    access-class is not retried: the render call throws that very error,
    never [API_KEY_INVALID], after the one call. *)
Theorem generateStoryShot_premium_hard_failure (P : Platform) (prompt image : string)
    (shotConfig : ShotConfig) (apiKey : option string) (w : World) (e : ErrorObj) :
  let premium := callOf P apiKey (shotRequest prompt image true shotConfig) in
  Js.truthy (resolveApiKey P apiKey) = true ->
  withTimeout (service P (sent w) premium) REQUEST_TIMEOUT_MS = Throw (ThrownObj e) ->
  isModelAccessError (ThrownObj e) = false ->
  generateStoryShot P prompt image true shotConfig apiKey w =
    (Throw (ThrownObj e), afterCalls w [premium]).
Proof.
  intros premium Hkey Hfirst Hacc. rewrite generateStoryShot_run. fold premium.
  rewrite Hkey, Hfirst, Hacc. cbn [andb]. unfold classified. cbn [readMessage].
  destruct (err_message e) as [message|] eqn:Hm; [|reflexivity].
  destruct (Js.includes "Requested entity was not found" message) eqn:Hinc;
    [|reflexivity].
  unfold isModelAccessError, messageText, optMessage, Js.orDefault in Hacc.
  rewrite Hm in Hacc.
  destruct (message =? "") eqn:Hempty.
  - apply String.eqb_eq in Hempty. rewrite Hempty in Hinc. discriminate.
  - rewrite Hinc, orb_true_r in Hacc. discriminate.
Qed.

Lemma generateStoryShot_premium_hard_failure_witness :
  fst (generateStoryShot
         (Sample.platform None
            [("gemini-3-pro-image-preview",
              Settles 90 (Throw (Sample.apiError 429 "Quota exceeded")));
             ("gemini-2.5-flash-image", Settles 9000 (Ok (Sample.imageResponse "UE5H")))])
         "a walk at dusk" Sample.photo true Sample.shot (Some "user-key") emptyWorld)
  = Throw (Sample.apiError 429 "Quota exceeded").
Proof.
  rewrite (@generateStoryShot_premium_hard_failure
             (Sample.platform None
                [("gemini-3-pro-image-preview",
                  Settles 90 (Throw (Sample.apiError 429 "Quota exceeded")));
                 ("gemini-2.5-flash-image", Settles 9000 (Ok (Sample.imageResponse "UE5H")))])
             "a walk at dusk" Sample.photo Sample.shot (Some "user-key") emptyWorld
             {| err_name := "ApiError"; err_message := Some "Quota exceeded";
                err_status := Some 429%N |}
             eq_refl eq_refl eq_refl).
  reflexivity.
Defined.

(** X17: when the retry on the standard model is answered within the
    deadline by a response without inline data, the render call fails with
    what the premium attempt failed with: [API_KEY_INVALID] when that
    message contains "Requested entity was not found", that first error
    itself otherwise; the error "이미지 생성 실패" is not used here. *)
Theorem generateStoryShot_retry_without_image (P : Platform) (prompt image : string)
    (shotConfig : ShotConfig) (apiKey : option string) (w : World)
    (error : Thrown) (response : GenerateContentResponse) :
  let premium := callOf P apiKey (shotRequest prompt image true shotConfig) in
  let standard := callOf P apiKey (shotFallbackRequest prompt image shotConfig) in
  Js.truthy (resolveApiKey P apiKey) = true ->
  withTimeout (service P (sent w) premium) REQUEST_TIMEOUT_MS = Throw error ->
  isModelAccessError error = true ->
  withTimeout (service P (sent w ++ [premium])%list standard) REQUEST_TIMEOUT_MS
    = Ok response ->
  firstInlineImage (firstCandidateParts response) = None ->
  generateStoryShot P prompt image true shotConfig apiKey w =
    (if Js.includes "Requested entity was not found" (messageText error)
     then Throw (ThrownObj (Error "API_KEY_INVALID"))
     else Throw error,
     afterCalls w [premium; standard]).
Proof.
  intros premium standard Hkey Hfirst Hacc Hsecond Hnone.
  rewrite generateStoryShot_run. fold premium standard.
  rewrite Hkey, Hfirst, Hacc. cbn [andb]. rewrite Hsecond, Hnone.
  unfold classified, messageText, optMessage, Js.orDefault.
  destruct error as [|e]; [discriminate|]. cbn [readMessage].
  destruct (err_message e) as [message|]; [|reflexivity].
  destruct (String.eqb_spec message "") as [Hempty | _]; [rewrite Hempty|]; reflexivity.
Qed.

Lemma generateStoryShot_retry_without_image_witness :
  fst (generateStoryShot
         (Sample.platform None
            [("gemini-3-pro-image-preview",
              Settles 400 (Throw (Sample.apiError 403 "Permission denied")));
             ("gemini-2.5-flash-image",
              Settles 8000 (Ok (Sample.textResponse (Some "no image today"))))])
         "a walk at dusk" Sample.photo true Sample.shot (Some "user-key") emptyWorld)
  = Throw (Sample.apiError 403 "Permission denied").
Proof.
  rewrite (@generateStoryShot_retry_without_image
             (Sample.platform None
                [("gemini-3-pro-image-preview",
                  Settles 400 (Throw (Sample.apiError 403 "Permission denied")));
                 ("gemini-2.5-flash-image",
                  Settles 8000 (Ok (Sample.textResponse (Some "no image today"))))])
             "a walk at dusk" Sample.photo Sample.shot (Some "user-key") emptyWorld
             (Sample.apiError 403 "Permission denied")
             (Sample.textResponse (Some "no image today"))
             eq_refl eq_refl eq_refl eq_refl eq_refl).
  reflexivity.
Defined.

(** ** Credentials and the image payload *)

(** X18: how a credential resolves: a key given and not empty is the key
    used, whatever the environment holds; without one, [API_KEY] comes
    before [GEMINI_API_KEY]; a key resolves exactly when one of the three is
    not empty; and resolving a resolved key changes nothing. *)
Theorem resolveApiKey_precedence (P : Platform) (apiKey : option string) :
  (forall key, apiKey = Some key -> key <> "" -> resolveApiKey P apiKey = Some key) /\
  (Js.truthy apiKey = false -> Js.truthy (env_API_KEY P) = true ->
   resolveApiKey P apiKey = env_API_KEY P) /\
  (Js.truthy apiKey = false -> Js.truthy (env_API_KEY P) = false ->
   resolveApiKey P apiKey = env_GEMINI_API_KEY P) /\
  Js.truthy (resolveApiKey P apiKey) =
    Js.truthy apiKey || Js.truthy (env_API_KEY P) || Js.truthy (env_GEMINI_API_KEY P) /\
  resolveApiKey P (resolveApiKey P apiKey) = resolveApiKey P apiKey.
Proof.
  unfold resolveApiKey, Js.or.
  split; [|split; [|split; [|split]]].
  - intros key -> Hne. apply String.eqb_neq in Hne. simpl.
    rewrite Hne. simpl. now rewrite Hne.
  - intros Ha Hb. now rewrite Ha, Hb.
  - intros Ha Hb. now rewrite Ha, Hb.
  - destruct (Js.truthy apiKey) eqn:Ha; [now rewrite Ha|].
    destruct (Js.truthy (env_API_KEY P)) eqn:Hb; [now rewrite Hb|].
    reflexivity.
  - destruct (Js.truthy apiKey) eqn:Ha.
    + now rewrite !Ha.
    + destruct (Js.truthy (env_API_KEY P)) eqn:Hb.
      * now rewrite !Hb.
      * destruct (Js.truthy (env_GEMINI_API_KEY P)) eqn:Hc.
        -- now rewrite !Hc.
        -- now rewrite Hb.
Qed.

Lemma resolveApiKey_precedence_witness :
  resolveApiKey (Sample.platform (Some "env-key") []) (Some "user-key") = Some "user-key" /\
  resolveApiKey (Sample.platform (Some "env-key") []) (Some "") = Some "env-key".
Proof.
  split.
  - destruct (resolveApiKey_precedence (Sample.platform (Some "env-key") [])
                (Some "user-key")) as [H _].
    apply (H "user-key" eq_refl). discriminate.
  - destruct (resolveApiKey_precedence (Sample.platform (Some "env-key") [])
                (Some "")) as [_ [_ [H _]]].
    apply H; reflexivity.
Defined.

Lemma includes_comma_cons (c : ascii) (s : string) :
  Js.includes "," (String c s) = false ->
  Ascii.eqb c "," = false /\ Js.includes "," s = false.
Proof.
  cbn [Js.includes Js.startsWith]. rewrite andb_true_r, Ascii.eqb_sym.
  intros H. now apply orb_false_iff in H.
Qed.

Lemma split_no_comma (s : string) :
  Js.includes "," s = false -> Js.split "," s = [s].
Proof.
  induction s as [|c s IH]; [reflexivity|].
  intros H. destruct (includes_comma_cons _ _ H) as [Hc Hs].
  cbn [Js.split]. now rewrite Hc, (IH Hs).
Qed.

Lemma split_at_first_comma (header rest : string) :
  Js.includes "," header = false ->
  Js.split "," (header ++ "," ++ rest) = header :: Js.split "," rest.
Proof.
  induction header as [|c header IH]; intros H.
  - reflexivity.
  - destruct (includes_comma_cons _ _ H) as [Hc Hs].
    cbn [append Js.split]. rewrite Hc.
    change (header ++ String "," rest) with (header ++ "," ++ rest).
    now rewrite (IH Hs).
Qed.

(** X19: what is sent as the image data.  For a data URL, a header without
    comma, a comma and a payload, it is the payload, cut at its first comma
    if it has one; for a string without any comma it is [undefined]. *)
Theorem afterComma_payload (header payload : string) :
  Js.includes "," header = false ->
  (Js.includes "," payload = false ->
   afterComma (header ++ "," ++ payload) = Some payload) /\
  (forall more, Js.includes "," payload = false ->
   afterComma (header ++ "," ++ payload ++ "," ++ more) = Some payload) /\
  afterComma header = None.
Proof.
  intros Hh. unfold afterComma. split; [|split].
  - intros Hp.
    now rewrite (@split_at_first_comma header payload Hh), (@split_no_comma payload Hp).
  - intros more Hp.
    now rewrite (@split_at_first_comma header _ Hh), (@split_at_first_comma payload more Hp).
  - now rewrite (@split_no_comma header Hh).
Qed.

Lemma afterComma_payload_witness :
  afterComma ("data:image/jpeg;base64" ++ "," ++ "QUJD") = Some "QUJD" /\
  afterComma "data:image/jpeg;base64" = None.
Proof.
  split.
  - apply (@afterComma_payload "data:image/jpeg;base64" "QUJD"); reflexivity.
  - apply (@afterComma_payload "data:image/jpeg;base64" "QUJD"). reflexivity.
Defined.

(** ** The empty credential *)

Lemma getAI_empty_default (P : Platform) :
  getAI P (Some "") = getAI P (defaultKey P).
Proof.
  unfold getAI. now rewrite resolveApiKey_empty, resolveApiKey_default.
Qed.

Lemma sendsFirst_afterCalls (w : World) (call : Call) (later : list Call) :
  sendsFirst w (afterCalls w (call :: later)) call.
Proof. exists later. reflexivity. Qed.

Lemma sendsFirst_logged (w w' : World) (call : Call) (label : string) (error : Thrown) :
  sendsFirst w w' call -> sendsFirst w (logged w' label error) call.
Proof. intros [later H]. exists later. exact H. Qed.

(** A run of the plan tiers begins with the call for the first tier, made
    with the key of the client. *)
Lemma generateWithFallback_sends_first (P : Platform) (ai : GoogleGenAI)
    (request : string -> GenerateContentParameters) (w : World) :
  sendsFirst w
    (snd (generateWithFallback ai PLAN_MODELS
            (fun model => generateContent P ai (request model)) w))
    {| call_apiKey := client_apiKey ai; call_request := request "gemini-2.5-pro" |}.
Proof.
  unfold generateWithFallback, PLAN_MODELS.
  rewrite tryModels_cons. cbv beta. rewrite generateContent_run. cbn [fst snd].
  destruct (attemptOutcome _) as [value | e]; [apply sendsFirst_afterCalls|].
  destruct (isModelAccessError e); [|apply sendsFirst_afterCalls].
  destruct (tryModels_generateContent_world P ai request ["gemini-2.5-flash"] e
              (afterCalls w [{| call_apiKey := client_apiKey ai;
                                call_request := request "gemini-2.5-pro" |}]))
    as [n [_ Hw]].
  rewrite Hw, afterCalls_app. apply sendsFirst_afterCalls.
Qed.

(** C10: for each of the five operations an empty string given as the
    credential does what no credential does.  When the process has a default
    key, the operation does with the empty string what it does with that
    key, and does not take the missing-credential path: its first call to the
    service leaves, made with the default key.  When the process has none,
    the validator answers [{valid: false, proAvailable: false}] and each
    generator throws [API_KEY_MISSING], without a call to the service. *)
Theorem empty_credential_as_absent (P : Platform) :
  (resolveApiKey P (Some "") = defaultKey P /\
   resolveApiKey P None = defaultKey P) /\
  (validateApiKey P (Some "") = validateApiKey P None /\
   (forall image,
      suggestNarrativeCategories P image (Some "") =
      suggestNarrativeCategories P image None) /\
   (forall image mode category zoomDirection,
      analyzeImageToStoryboardPlan P image mode category zoomDirection (Some "") =
      analyzeImageToStoryboardPlan P image mode category zoomDirection None) /\
   (forall plan mode,
      updatePromptsWithEdits P plan mode (Some "") =
      updatePromptsWithEdits P plan mode None) /\
   (forall prompt image isPro shotConfig,
      generateStoryShot P prompt image isPro shotConfig (Some "") =
      generateStoryShot P prompt image isPro shotConfig None)) /\
  (Js.truthy (defaultKey P) = true ->
   getAI P (Some "") = Ok (newGoogleGenAI (defaultKey P)) /\
   (validateApiKey P (Some "") = validateApiKey P (defaultKey P) /\
    (forall image,
       suggestNarrativeCategories P image (Some "") =
       suggestNarrativeCategories P image (defaultKey P)) /\
    (forall image mode category zoomDirection,
       analyzeImageToStoryboardPlan P image mode category zoomDirection (Some "") =
       analyzeImageToStoryboardPlan P image mode category zoomDirection (defaultKey P)) /\
    (forall plan mode,
       updatePromptsWithEdits P plan mode (Some "") =
       updatePromptsWithEdits P plan mode (defaultKey P)) /\
    (forall prompt image isPro shotConfig,
       generateStoryShot P prompt image isPro shotConfig (Some "") =
       generateStoryShot P prompt image isPro shotConfig (defaultKey P))) /\
   forall w : World,
     sendsFirst w (snd (validateApiKey P (Some "") w))
       {| call_apiKey := defaultKey P; call_request := probe "gemini-2.5-pro" |} /\
     (forall image,
        sendsFirst w (snd (suggestNarrativeCategories P image (Some "") w))
          {| call_apiKey := defaultKey P;
             call_request := categoriesRequest image "gemini-2.5-pro" |}) /\
     (forall image mode category zoomDirection,
        sendsFirst w
          (snd (analyzeImageToStoryboardPlan P image mode category zoomDirection
                  (Some "") w))
          {| call_apiKey := defaultKey P;
             call_request :=
               planRequest image mode category zoomDirection "gemini-2.5-pro" |}) /\
     (forall plan mode,
        sendsFirst w (snd (updatePromptsWithEdits P plan mode (Some "") w))
          {| call_apiKey := defaultKey P;
             call_request := editRequest plan "gemini-2.5-pro" |}) /\
     (forall prompt image isPro shotConfig,
        sendsFirst w (snd (generateStoryShot P prompt image isPro shotConfig (Some "") w))
          {| call_apiKey := defaultKey P;
             call_request := shotRequest prompt image isPro shotConfig |})) /\
  (Js.truthy (defaultKey P) = false ->
   forall w : World,
     validateApiKey P (Some "") w = (Ok {| valid := false; proAvailable := false |}, w) /\
     (forall image,
        suggestNarrativeCategories P image (Some "") w =
        (Throw (ThrownObj (Error "API_KEY_MISSING")), w)) /\
     (forall image mode category zoomDirection,
        analyzeImageToStoryboardPlan P image mode category zoomDirection (Some "") w =
        (Throw (ThrownObj (Error "API_KEY_MISSING")), w)) /\
     (forall plan mode,
        updatePromptsWithEdits P plan mode (Some "") w =
        (Throw (ThrownObj (Error "API_KEY_MISSING")), w)) /\
     (forall prompt image isPro shotConfig,
        generateStoryShot P prompt image isPro shotConfig (Some "") w =
        (Throw (ThrownObj (Error "API_KEY_MISSING")), w))).
Proof.
  split; [split; reflexivity|].
  split; [repeat split|].
  split.
  - intros Hdef.
    assert (Hai : getAI P (Some "") = Ok (newGoogleGenAI (defaultKey P))).
    { unfold getAI. rewrite resolveApiKey_empty, Hdef. reflexivity. }
    split; [exact Hai|]. split.
    + split; [|split; [|split; [|split]]].
      * unfold validateApiKey. now rewrite resolveApiKey_empty, resolveApiKey_default.
      * intros. unfold suggestNarrativeCategories. now rewrite getAI_empty_default.
      * intros. unfold analyzeImageToStoryboardPlan. now rewrite getAI_empty_default.
      * intros. unfold updatePromptsWithEdits. now rewrite getAI_empty_default.
      * intros. unfold generateStoryShot.
        now rewrite resolveApiKey_empty, resolveApiKey_default.
    + intros w. split; [|split; [|split; [|split]]].
      * rewrite validateApiKey_run. cbv zeta.
        rewrite resolveApiKey_empty, Hdef. unfold callOf.
        rewrite resolveApiKey_empty.
        destruct (withTimeout _ VALIDATION_TIMEOUT_MS) as [first | error];
          [apply sendsFirst_afterCalls|].
        destruct (isModelAccessError error).
        -- destruct (withTimeout _ VALIDATION_TIMEOUT_MS) as [second | error2];
             cbn [snd]; [|apply sendsFirst_logged]; apply sendsFirst_afterCalls.
        -- cbn [snd]. apply sendsFirst_logged, sendsFirst_afterCalls.
      * intros image. unfold suggestNarrativeCategories, bind, lift. rewrite Hai.
        pose proof (generateWithFallback_sends_first P (newGoogleGenAI (defaultKey P))
                      (categoriesRequest image) w) as H.
        cbn [client_apiKey] in H.
        destruct (generateWithFallback _ PLAN_MODELS _ w) as [[response | e] w'];
          [|exact H].
        destruct (response_text response) as [text|]; [|exact H].
        destruct (text =? ""); [exact H|].
        unfold ret. cbn [snd] in *.
        destruct (JSON_parse P text); exact H.
      * intros image mode category zoomDirection.
        unfold analyzeImageToStoryboardPlan, bind, lift. rewrite Hai.
        pose proof (generateWithFallback_sends_first P (newGoogleGenAI (defaultKey P))
                      (planRequest image mode category zoomDirection) w) as H.
        cbn [client_apiKey] in H.
        destruct (generateWithFallback _ PLAN_MODELS _ w) as [[response | e] w'];
          [|exact H].
        destruct (response_text response) as [text|]; [|exact H].
        destruct (text =? ""); [exact H|].
        cbn [snd] in *.
        destruct (JSON_parse P text); exact H.
      * intros plan mode.
        unfold updatePromptsWithEdits, bind, lift. rewrite Hai.
        pose proof (generateWithFallback_sends_first P (newGoogleGenAI (defaultKey P))
                      (editRequest plan) w) as H.
        cbn [client_apiKey] in H.
        destruct (generateWithFallback _ PLAN_MODELS _ w) as [[response | e] w'];
          [|exact H].
        destruct (response_text response) as [text|]; [|exact H].
        destruct (text =? ""); [exact H|].
        cbn [snd] in *.
        destruct (JSON_parse P text); exact H.
      * intros prompt image isPro shotConfig.
        rewrite generateStoryShot_run. cbv zeta.
        rewrite resolveApiKey_empty, Hdef. unfold callOf.
        rewrite resolveApiKey_empty.
        destruct (withTimeout _ REQUEST_TIMEOUT_MS) as [response | error];
          [apply sendsFirst_afterCalls|].
        destruct (isPro && isModelAccessError error); apply sendsFirst_afterCalls.
  - intros Hnone w.
    assert (Hai : getAI P (Some "") = Throw (ThrownObj (Error "API_KEY_MISSING"))).
    { unfold getAI. rewrite resolveApiKey_empty, Hnone. reflexivity. }
    split; [|split; [|split; [|split]]].
    + unfold validateApiKey. rewrite resolveApiKey_empty, Hnone. reflexivity.
    + intros. unfold suggestNarrativeCategories, bind, lift. now rewrite Hai.
    + intros. unfold analyzeImageToStoryboardPlan, bind, lift. now rewrite Hai.
    + intros. unfold updatePromptsWithEdits, bind, lift. now rewrite Hai.
    + intros. unfold generateStoryShot. rewrite resolveApiKey_empty, Hnone. reflexivity.
Qed.

Lemma empty_credential_as_absent_witness :
  let P := Sample.platform (Some "env-key")
             [("gemini-2.5-pro", Settles 300 (Ok (Sample.textResponse (Some "ok"))))] in
  getAI P (Some "") = Ok (newGoogleGenAI (Some "env-key")) /\
  hd_error (sent (snd (validateApiKey P (Some "") emptyWorld)))
    = Some {| call_apiKey := Some "env-key"; call_request := probe "gemini-2.5-pro" |} /\
  fst (validateApiKey P (Some "") emptyWorld)
    = Ok {| valid := true; proAvailable := true |} /\
  hd_error (sent (snd (suggestNarrativeCategories P Sample.photo (Some "") emptyWorld)))
    = Some {| call_apiKey := Some "env-key";
              call_request := categoriesRequest Sample.photo "gemini-2.5-pro" |} /\
  hd_error (sent (snd (generateStoryShot P "a walk at dusk" Sample.photo false
                         Sample.shot (Some "") emptyWorld)))
    = Some {| call_apiKey := Some "env-key";
              call_request := shotRequest "a walk at dusk" Sample.photo false
                                Sample.shot |} /\
  validateApiKey (Sample.platform None []) (Some "") emptyWorld
    = (Ok {| valid := false; proAvailable := false |}, emptyWorld) /\
  generateStoryShot (Sample.platform None []) "a walk at dusk" Sample.photo true
      Sample.shot (Some "") emptyWorld
    = (Throw (ThrownObj (Error "API_KEY_MISSING")), emptyWorld).
Proof.
  intros P.
  destruct (empty_credential_as_absent P) as [_ [_ [Hdefault _]]].
  destruct (Hdefault eq_refl) as [Hai [[Hvalidate _] Hfirst]].
  destruct (Hfirst emptyWorld)
    as [[later Hsent] [Hsuggest [_ [_ Hshot]]]].
  destruct (Hsuggest Sample.photo) as [later1 Hsent1].
  destruct (Hshot "a walk at dusk" Sample.photo false Sample.shot) as [later2 Hsent2].
  split; [exact Hai|]. split; [|split; [|split; [|split; [|split]]]].
  - rewrite Hsent. reflexivity.
  - rewrite Hvalidate. reflexivity.
  - rewrite Hsent1. reflexivity.
  - rewrite Hsent2. reflexivity.
  - apply (empty_credential_as_absent (Sample.platform None [])).
    reflexivity.
  - apply (empty_credential_as_absent (Sample.platform None [])).
    reflexivity.
Defined.

(** * Properties of the application component *)

(** ** The steps of the page *)

(** X20: Back never leads to the result step, leads to the upload step in
    two presses at most and to the initial state in three, from any
    state. *)
Theorem handleBack_returns_home (state : App.AppState) :
  App.appStep (App.handleBack state) <> App.result /\
  App.appStep (App.handleBack (App.handleBack state)) = App.upload /\
  App.handleBack (App.handleBack (App.handleBack state)) = App.INITIAL_STATE.
Proof.
  destruct state as [mode step image plan board analyzing progress generating
                     generation categories category zoom translated editing].
  destruct step, mode; repeat split; discriminate.
Qed.

(** ** The progress of the analysis *)

Lemma progressTick_progress (draw : nat) (prev : App.AppState) :
  App.analysisProgress (App.progressTick draw prev) =
  if (App.analysisProgress prev <? 95)%nat
  then App.analysisProgress prev + draw + 1 else 95.
Proof. reflexivity. Qed.

Lemma runTicks_app (first later : list nat) (state : App.AppState) :
  runTicks (first ++ later)%list state = runTicks later (runTicks first state).
Proof. unfold runTicks. apply fold_left_app. Qed.

(** After [n] ticks the progress is [n] at least, or 95 at least. *)
Lemma runTicks_lower_bound (draws : list nat) (state : App.AppState) :
  Nat.min (List.length draws) 95 <= App.analysisProgress (runTicks draws state).
Proof.
  induction draws as [|draw draws IH] using rev_ind.
  - simpl. lia.
  - rewrite runTicks_app, length_app. cbn [runTicks fold_left List.length].
    rewrite progressTick_progress.
    fold (runTicks draws state).
    destruct (Nat.ltb_spec (App.analysisProgress (runTicks draws state)) 95); lia.
Qed.

(** X21: while the analysis runs, the progress shown, started at 99 or
    less, stays at 99 or less, whatever the draws from 0 to 4; a tick below
    95 raises it; and from the ninety-sixth tick on it stands at 95. *)
Theorem progress_stays_below_hundred (draws : list nat) (state : App.AppState) :
  (App.analysisProgress state <= 99 -> Forall (fun draw => draw <= 4) draws ->
   App.analysisProgress (runTicks draws state) <= 99) /\
  (forall draw, App.analysisProgress state < 95 ->
   App.analysisProgress state < App.analysisProgress (App.progressTick draw state)) /\
  (96 <= List.length draws -> App.analysisProgress (runTicks draws state) = 95).
Proof.
  split; [|split].
  - intros Hstart Hdraws. revert state Hstart.
    induction Hdraws as [|draw draws Hdraw _ IH]; intros state Hstart; [exact Hstart|].
    cbn [runTicks fold_left]. apply IH. rewrite progressTick_progress.
    destruct (Nat.ltb_spec (App.analysisProgress state) 95); lia.
  - intros draw Hlow. rewrite progressTick_progress.
    destruct (Nat.ltb_spec (App.analysisProgress state) 95); lia.
  - intros Hlen.
    assert (Hne : draws <> []) by (intros ->; simpl in Hlen; lia).
    destruct (exists_last Hne) as [earlier [draw Hsplit]]. rewrite Hsplit in *.
    rewrite length_app in Hlen. simpl in Hlen.
    rewrite runTicks_app. cbn [runTicks fold_left]. rewrite progressTick_progress.
    fold (runTicks earlier state).
    pose proof (runTicks_lower_bound earlier state) as Hlow.
    destruct (Nat.ltb_spec (App.analysisProgress (runTicks earlier state)) 95); lia.
Qed.

Lemma progress_stays_below_hundred_witness :
  App.analysisProgress (runTicks [4; 4; 0; 3] App.INITIAL_STATE) <= 99 /\
  App.analysisProgress (runTicks (repeat 4 96) App.INITIAL_STATE) = 95.
Proof.
  split.
  - apply (progress_stays_below_hundred [4; 4; 0; 3] App.INITIAL_STATE).
    + simpl. lia.
    + repeat constructor.
  - apply (progress_stays_below_hundred (repeat 4 96) App.INITIAL_STATE).
    rewrite repeat_length. apply Nat.le_refl.
Defined.

(** ** The scenes of the board *)

Lemma indexedAngles_ids (idx : nat) (entries : list Angle) :
  map App.board_id (App.indexedAngles idx entries) = seq idx (List.length entries).
Proof.
  revert idx; induction entries as [|a rest IH]; intros idx; simpl;
    [reflexivity | now rewrite IH].
Qed.

Lemma indexedAngles_length (idx : nat) (entries : list Angle) :
  List.length (App.indexedAngles idx entries) = List.length entries.
Proof.
  revert idx; induction entries as [|a rest IH]; intros idx; simpl;
    [reflexivity | now rewrite IH].
Qed.

(** An update of the scene [id] on scenes numbered from [start]. *)
Lemma updateAngle_nth (start id : nat) (change : App.StoryboardAngle -> App.StoryboardAngle)
    (board : list App.StoryboardAngle) (i : nat) :
  map App.board_id board = seq start (List.length board) ->
  nth_error (App.updateAngle id change board) i =
  if (start + i =? id)%nat then option_map change (nth_error board i)
  else nth_error board i.
Proof.
  revert start i; induction board as [|a rest IH]; intros start i Hids.
  - destruct i; simpl; now destruct (_ =? id)%nat.
  - simpl in Hids. injection Hids as Ha Hrest.
    destruct i as [|i]; cbn [App.updateAngle map nth_error].
    + rewrite Ha, Nat.add_0_r. now destruct (start =? id)%nat.
    + fold (App.updateAngle id change rest).
      rewrite (@IH (Datatypes.S start) i Hrest).
      now replace (Datatypes.S start + i) with (start + Datatypes.S i) by lia.
Qed.

(** X22: the scenes built from a plan are numbered by their position, one
    per entry of the plan and all pending; an update of the scene [id] that
    keeps the numbers, as the three updates of the status do, changes the
    scene at position [id] and no other, and leaves the scenes numbered by
    their position. *)
Theorem board_numbered_by_position (plan : StoryboardPlan)
    (board : list App.StoryboardAngle) (id : nat)
    (change : App.StoryboardAngle -> App.StoryboardAngle) :
  (numberedByPosition (App.initialAngles plan) /\
   List.length (App.initialAngles plan) = List.length (angles plan) /\
   Forall (fun a => App.board_status a = App.StatusPending /\ App.board_imageUrl a = None)
     (App.initialAngles plan)) /\
  (forall status url a,
     App.board_id (App.withStatus status a) = App.board_id a /\
     App.board_id (App.completedWith url a) = App.board_id a) /\
  (numberedByPosition board ->
   (forall a, App.board_id (change a) = App.board_id a) ->
   numberedByPosition (App.updateAngle id change board) /\
   forall i, nth_error (App.updateAngle id change board) i =
             if (i =? id)%nat then option_map change (nth_error board i)
             else nth_error board i).
Proof.
  split; [|split].
  - unfold numberedByPosition, App.initialAngles.
    rewrite indexedAngles_length, indexedAngles_ids.
    split; [reflexivity|]. split; [reflexivity|].
    generalize 0. induction (angles plan) as [|a rest IH]; intros idx; simpl;
      constructor; [now split | apply IH].
  - intros status url a. split; reflexivity.
  - intros Hnum Hkeep. split.
    + unfold numberedByPosition, App.updateAngle in *.
      rewrite length_map, map_map, <- Hnum. apply map_ext.
      intros a. destruct (App.board_id a =? id)%nat; [apply Hkeep | reflexivity].
    + intros i. exact (@updateAngle_nth 0 id change board i Hnum).
Qed.

Lemma board_numbered_by_position_witness :
  let plan := {| subject := "a traveller"; style := "noir"; resolution := "1K";
                 aspectRatio := "16:9";
                 angles := [{| angle_name := "Wide"; angle_prompt := "p0";
                               angle_promptKo := "k0" |};
                            {| angle_name := "Close"; angle_prompt := "p1";
                               angle_promptKo := "k1" |}] |} in
  map App.board_status
    (App.updateAngle 1 (App.withStatus App.StatusGenerating) (App.initialAngles plan))
  = [App.StatusPending; App.StatusGenerating] /\
  numberedByPosition
    (App.updateAngle 1 (App.withStatus App.StatusGenerating) (App.initialAngles plan)).
Proof.
  intros plan.
  destruct (@board_numbered_by_position plan (App.initialAngles plan) 1
              (App.withStatus App.StatusGenerating)) as [[Hinit _] [_ Hupdate]].
  destruct (Hupdate Hinit (fun a => eq_refl)) as [Hnum _].
  split; [reflexivity | exact Hnum].
Defined.

(** ** The key panel and the render errors *)

Lemma reportShotError_not_found (e : ErrorObj) :
  Js.includes "Requested entity was not found" (messageText (ThrownObj e)) = true ->
  App.reportShotError (ThrownObj e) = Ok invalidKeyReport.
Proof.
  unfold messageText, optMessage, Js.orDefault, App.reportShotError.
  cbn [readMessage]. destruct (err_message e) as [m|]; [|discriminate].
  destruct (String.eqb_spec m "") as [Hempty | _]; [rewrite Hempty; discriminate|].
  intros Hinc.
  destruct (String.eqb_spec m "API_KEY_MISSING") as [Hm | _];
    [rewrite Hm in Hinc; discriminate|].
  destruct (String.eqb_spec m "REQUEST_TIMEOUT") as [Hm | _];
    [rewrite Hm in Hinc; discriminate|].
  now rewrite Hinc, orb_true_r.
Qed.

(** X23: when the attempt on the standard image model, first attempt or
    retry, fails with a message that contains "Requested entity was not
    found", the page marks the key invalid: on the first attempt the render
    call throws [API_KEY_INVALID], on the retry it throws the error as it
    is, and the [catch] block of [generateAngleImage] reports both alike. *)
Theorem unknown_key_reported_invalid (P : Platform) (prompt image : string)
    (shotConfig : ShotConfig) (apiKey : option string) (w : World) (e : ErrorObj) :
  let standard := callOf P apiKey (shotRequest prompt image false shotConfig) in
  let premium := callOf P apiKey (shotRequest prompt image true shotConfig) in
  let retry := callOf P apiKey (shotFallbackRequest prompt image shotConfig) in
  Js.truthy (resolveApiKey P apiKey) = true ->
  Js.includes "Requested entity was not found" (messageText (ThrownObj e)) = true ->
  (withTimeout (service P (sent w) standard) REQUEST_TIMEOUT_MS = Throw (ThrownObj e) ->
   exists err,
     fst (generateStoryShot P prompt image false shotConfig apiKey w) = Throw err /\
     App.reportShotError err = Ok invalidKeyReport) /\
  (forall first,
   withTimeout (service P (sent w) premium) REQUEST_TIMEOUT_MS = Throw first ->
   isModelAccessError first = true ->
   withTimeout (service P (sent w ++ [premium])%list retry) REQUEST_TIMEOUT_MS
     = Throw (ThrownObj e) ->
   exists err,
     fst (generateStoryShot P prompt image true shotConfig apiKey w) = Throw err /\
     App.reportShotError err = Ok invalidKeyReport).
Proof.
  intros standard premium retry Hkey Hinc. split.
  - intros Hfirst. exists (ThrownObj (Error "API_KEY_INVALID")).
    split; [|reflexivity].
    rewrite generateStoryShot_run. fold standard. rewrite Hkey, Hfirst.
    cbn [andb fst]. unfold classified. cbn [readMessage].
    unfold messageText, optMessage, Js.orDefault in Hinc.
    destruct (err_message e) as [m|]; [|discriminate].
    destruct (m =? ""); [discriminate|].
    now rewrite Hinc.
  - intros first Hfirst Hacc Hretry. exists (ThrownObj e).
    split; [|now apply reportShotError_not_found].
    rewrite generateStoryShot_run. fold premium retry.
    now rewrite Hkey, Hfirst, Hacc, Hretry.
Qed.

Lemma unknown_key_reported_invalid_witness :
  exists err,
    fst (generateStoryShot
           (Sample.platform None
              [("gemini-3-pro-image-preview",
                Settles 400 (Throw (Sample.apiError 403 "Permission denied")));
               ("gemini-2.5-flash-image",
                Settles 350 (Throw (Sample.apiError 404 "Requested entity was not found.")))])
           "a walk at dusk" Sample.photo true Sample.shot (Some "user-key") emptyWorld)
      = Throw err /\
    App.reportShotError err = Ok invalidKeyReport.
Proof.
  destruct (@unknown_key_reported_invalid
              (Sample.platform None
                 [("gemini-3-pro-image-preview",
                   Settles 400 (Throw (Sample.apiError 403 "Permission denied")));
                  ("gemini-2.5-flash-image",
                   Settles 350 (Throw (Sample.apiError 404 "Requested entity was not found.")))])
              "a walk at dusk" Sample.photo Sample.shot (Some "user-key") emptyWorld
              {| err_name := "ApiError";
                 err_message := Some "Requested entity was not found.";
                 err_status := Some 404%N |}
              eq_refl eq_refl) as [_ H].
  apply (H (Sample.apiError 403 "Permission denied")); reflexivity.
Defined.

(** The validator, given a key that is not empty: it returns a verdict after
    one or two probes that carry the key. *)
Lemma validateApiKey_given_key (P : Platform) (key : string) (w : World) :
  key <> "" ->
  exists (verdict : Validation) (w' : World) (n : nat),
    validateApiKey P (Some key) w = (Ok verdict, w') /\
    (proAvailable verdict = true -> valid verdict = true) /\
    1 <= n /\ n <= 2 /\
    sent w' =
      (sent w ++ firstn n
         [{| call_apiKey := Some key; call_request := probe "gemini-2.5-pro" |};
          {| call_apiKey := Some key; call_request := probe "gemini-2.5-flash" |}])%list.
Proof.
  intros Hkey. apply String.eqb_neq in Hkey.
  rewrite validateApiKey_run.
  assert (Hres : resolveApiKey P (Some key) = Some key).
  { unfold resolveApiKey, Js.or. simpl. rewrite Hkey. simpl. now rewrite Hkey. }
  unfold callOf. rewrite Hres. cbn [Js.truthy]. rewrite Hkey. cbn [negb].
  destruct (withTimeout _ VALIDATION_TIMEOUT_MS) as [first | error].
  - do 2 eexists. exists 1. split; [reflexivity|]. repeat split; auto.
  - destruct (isModelAccessError error).
    + destruct (withTimeout _ VALIDATION_TIMEOUT_MS) as [second | error2];
        do 2 eexists; exists 2; (split; [reflexivity|]);
        repeat split; auto; discriminate.
    + do 2 eexists. exists 1. split; [reflexivity|].
      repeat split; auto; discriminate.
Qed.

(** X24: saving the key.  An input that trims to nothing disconnects: when
    the removal of the stored key goes through, the key, the status and the
    premium access are reset, and when it throws, the handler throws with
    nothing changed; no call is made either way.  Any other input is taken,
    trimmed, as the key, and written to the storage.  When the write throws,
    the handler throws that error, no call is made, and the stored key and
    the status stay as they were.  When the write goes through, the key is
    validated with one or two calls that carry it, the handler does not
    throw, the status shown is valid or invalid, an error text is set
    exactly when it is invalid, and premium access is granted only along
    with a valid status. *)
Theorem handleSaveApiKey_outcome (B : App.Storage) (P : Platform) (page : App.Page) :
  let trimmedKey := trim (App.keyInput (App.page_panel page)) in
  let run := App.handleSaveApiKey B P page in
  let saved := App.page_panel (snd run) in
  (trimmedKey = "" ->
   run = App.handleDisconnectKey B page /\
   App.page_world (snd run) = App.page_world page /\
   (App.storage_removeItem B "gemini_api_key" = Ok tt ->
    fst run = Ok tt /\
    App.storedKey saved = None /\
    App.apiKey saved = "" /\
    App.keyStatus saved = App.KeyNone /\
    App.proAccess saved = false) /\
   (forall e, App.storage_removeItem B "gemini_api_key" = Throw e ->
    run = (Throw e, page))) /\
  (trimmedKey <> "" ->
   App.apiKey saved = trimmedKey /\
   (forall e, App.storage_setItem B "gemini_api_key" trimmedKey = Throw e ->
    fst run = Throw e /\
    App.page_world (snd run) = App.page_world page /\
    App.storedKey saved = App.storedKey (App.page_panel page) /\
    App.keyStatus saved = App.keyStatus (App.page_panel page)) /\
   (App.storage_setItem B "gemini_api_key" trimmedKey = Ok tt ->
    exists n : nat,
      fst run = Ok tt /\
      App.storedKey saved = Some trimmedKey /\
      (App.keyStatus saved = App.KeyValid \/ App.keyStatus saved = App.KeyInvalid) /\
      (App.keyStatus saved = App.KeyInvalid <-> App.errorText saved <> None) /\
      (App.proAccess saved = true -> App.keyStatus saved = App.KeyValid) /\
      1 <= n /\ n <= 2 /\
      sent (App.page_world (snd run)) =
        (sent (App.page_world page) ++ firstn n
           [{| call_apiKey := Some trimmedKey; call_request := probe "gemini-2.5-pro" |};
            {| call_apiKey := Some trimmedKey;
               call_request := probe "gemini-2.5-flash" |}])%list)).
Proof.
  cbv zeta. split.
  - intros Hblank. unfold App.handleSaveApiKey. rewrite Hblank. cbn [String.eqb].
    split; [reflexivity|].
    unfold App.handleDisconnectKey, App.localStorage_removeItem, bind, lift.
    destruct (App.storage_removeItem B "gemini_api_key") as [[] | e].
    + split; [reflexivity|]. split.
      * intros _. repeat split.
      * intros e [=].
    + split; [reflexivity|]. split.
      * intros [=].
      * intros e' [= <-]. reflexivity.
  - intros Hkey.
    destruct (validateApiKey_given_key P (App.page_world page) Hkey)
      as (verdict & w' & n & Hrun & Hpro & Hn1 & Hn2 & Hsent).
    unfold App.handleSaveApiKey.
    apply String.eqb_neq in Hkey. rewrite Hkey.
    unfold App.localStorage_setItem, bind, lift.
    cbn [App.setApiKey App.setPanel App.page_panel App.page_world].
    destruct (App.storage_setItem B "gemini_api_key"
                (trim (App.keyInput (App.page_panel page)))) as [[] | e].
    + unfold App.onWorld.
      cbn [App.setKeyStatus App.setPanel App.page_panel App.page_world
           App.withStoredKey].
      rewrite Hrun.
      cbn [fst snd App.storedKey App.apiKey App.keyStatus App.errorText App.proAccess
           App.setKeyStatus App.setProAccess App.setError App.setKeyMessage
           App.setPanel App.page_panel App.page_world].
      split; [reflexivity|]. split; [intros e [=]|]. intros _. exists n.
      split; [reflexivity|]. split; [reflexivity|].
      destruct verdict as [[] []]; cbn [valid proAvailable] in *.
      * repeat split; auto; try discriminate. intros H; now contradiction H.
      * repeat split; auto; try discriminate. intros H; now contradiction H.
      * specialize (Hpro eq_refl). discriminate.
      * repeat split; auto; try discriminate.
    + cbn [fst snd App.page_panel App.page_world App.apiKey App.storedKey App.keyStatus].
      split; [reflexivity|]. split.
      * intros e' [= <-]. repeat split.
      * intros [=].
Qed.

Lemma handleSaveApiKey_outcome_witness :
  let P := Sample.platform None
             [("gemini-2.5-pro",
               Settles 400 (Throw (Sample.apiError 403 "Permission denied")));
              ("gemini-2.5-flash", Settles 300 (Ok (Sample.textResponse (Some "ok"))))] in
  let blank := App.handleSaveApiKey workingStorage P (pageWithInput "   ") in
  let refused := App.handleSaveApiKey fullStorage P (pageWithInput " AIza-demo ") in
  let saved := App.handleSaveApiKey workingStorage P (pageWithInput " AIza-demo ") in
  (fst blank = Ok tt /\
   App.storedKey (App.page_panel (snd blank)) = None /\
   App.page_world (snd blank) = emptyWorld) /\
  (fst refused = Throw quotaExceeded /\
   App.page_world (snd refused) = emptyWorld /\
   App.apiKey (App.page_panel (snd refused)) = "AIza-demo" /\
   App.storedKey (App.page_panel (snd refused)) = Some "old-key") /\
  (fst saved = Ok tt /\
   App.storedKey (App.page_panel (snd saved)) = Some "AIza-demo" /\
   App.keyStatus (App.page_panel (snd saved)) = App.KeyValid /\
   App.proAccess (App.page_panel (snd saved)) = false /\
   map (fun call => model (call_request call)) (sent (App.page_world (snd saved)))
     = ["gemini-2.5-pro"; "gemini-2.5-flash"]).
Proof.
  intros P blank refused saved.
  assert (Hblank : trim "   " = "") by reflexivity.
  assert (Hkey : trim " AIza-demo " <> "") by (vm_compute; discriminate).
  split; [|split].
  - destruct (proj1 (handleSaveApiKey_outcome workingStorage P (pageWithInput "   "))
                Hblank) as [_ [Hworld [Hremoved _]]].
    destruct (Hremoved eq_refl) as [Hrun [Hstored _]].
    split; [exact Hrun|]. split; [exact Hstored | exact Hworld].
  - destruct (proj2 (handleSaveApiKey_outcome fullStorage P (pageWithInput " AIza-demo "))
                Hkey) as [Hapi [Hthrows _]].
    destruct (Hthrows quotaExceeded eq_refl) as [Hrun [Hworld [Hstored _]]].
    split; [exact Hrun|]. split; [exact Hworld|]. split; [exact Hapi | exact Hstored].
  - destruct (proj2 (handleSaveApiKey_outcome workingStorage P
                       (pageWithInput " AIza-demo ")) Hkey) as [_ [_ Hsaved]].
    destruct (Hsaved eq_refl) as [n [Hrun [Hstored _]]].
    split; [exact Hrun|]. split; [exact Hstored|].
    split; [reflexivity|]. split; reflexivity.
Defined.

(** ** The names of the downloaded files *)

Lemma string_of_uint_digits (d : Decimal.uint) :
  allChars isDigit (DecimalString.NilEmpty.string_of_uint d) = true.
Proof. induction d; simpl; auto. Qed.

Lemma String_of_nat_inj (n m : nat) : String_of_nat n = String_of_nat m -> n = m.
Proof.
  unfold String_of_nat. intros H. apply DecimalNat.Unsigned.to_uint_inj.
  pose proof (DecimalString.NilEmpty.usu (Nat.to_uint n)) as Hn.
  pose proof (DecimalString.NilEmpty.usu (Nat.to_uint m)) as Hm.
  rewrite H in Hn. congruence.
Qed.

Lemma nzhead_no_leading_zero (d d' : Decimal.uint) : Decimal.nzhead d <> Decimal.D0 d'.
Proof. induction d; simpl; try discriminate. exact IHd. Qed.

(** The decimal writing of a number has no digit after a leading zero. *)
Lemma String_of_nat_leading_zero (n : nat) (rest : string) :
  String_of_nat n = String "0" rest -> rest = "".
Proof.
  unfold String_of_nat.
  assert (Hnorm : Nat.to_uint n = Decimal.unorm (Nat.to_uint n)).
  { rewrite <- DecimalNat.Unsigned.to_of. now rewrite DecimalNat.Unsigned.of_to. }
  rewrite Hnorm. unfold Decimal.unorm.
  destruct (Decimal.nzhead (Nat.to_uint n)) as [|d|d|d|d|d|d|d|d|d|d] eqn:Hhead;
    simpl; try discriminate.
  - now intros [= <-].
  - now apply nzhead_no_leading_zero in Hhead.
Qed.

Lemma String_of_nat_nonempty (n : nat) : String_of_nat n <> "".
Proof.
  unfold String_of_nat.
  assert (Hnorm : Nat.to_uint n = Decimal.unorm (Nat.to_uint n)).
  { rewrite <- DecimalNat.Unsigned.to_of. now rewrite DecimalNat.Unsigned.of_to. }
  rewrite Hnorm. unfold Decimal.unorm.
  destruct (Decimal.nzhead (Nat.to_uint n)); simpl; discriminate.
Qed.

Lemma padStart_2_cases (s : string) :
  s <> "" ->
  (exists c, s = String c "" /\ padStart 2 "0" s = String "0" s) \/
  (exists c1 c2 rest, s = String c1 (String c2 rest) /\ padStart 2 "0" s = s).
Proof.
  intros Hne. destruct s as [|c1 [|c2 rest]]; [contradiction | left | right].
  - now exists c1.
  - now exists c1, c2, rest.
Qed.

(** The step numbers written on two digits tell the numbers apart. *)
Lemma padded_number_inj (n m : nat) :
  padStart 2 "0" (String_of_nat (n + 1)) = padStart 2 "0" (String_of_nat (m + 1)) ->
  n = m.
Proof.
  intros H.
  assert (Heq : String_of_nat (n + 1) = String_of_nat (m + 1)).
  { destruct (padStart_2_cases (String_of_nat_nonempty (n + 1)))
      as [[c [Hs Hp]] | [c1 [c2 [rest [Hs Hp]]]]];
    destruct (padStart_2_cases (String_of_nat_nonempty (m + 1)))
      as [[c' [Hs' Hp']] | [c1' [c2' [rest' [Hs' Hp']]]]];
    rewrite Hp, Hp' in H.
    - now injection H.
    - symmetry in H. apply String_of_nat_leading_zero in H.
      now apply String_of_nat_nonempty in H.
    - apply String_of_nat_leading_zero in H.
      now apply String_of_nat_nonempty in H.
    - exact H. }
  apply String_of_nat_inj in Heq. lia.
Qed.

Lemma padStart_digits (n : nat) :
  allChars isDigit (padStart 2 "0" (String_of_nat n)) = true.
Proof.
  pose proof (string_of_uint_digits (Nat.to_uint n)) as Hd.
  fold (String_of_nat n) in Hd.
  destruct (padStart_2_cases (String_of_nat_nonempty n))
    as [[c [Hs Hp]] | [c1 [c2 [rest [Hs Hp]]]]]; rewrite Hp; [|exact Hd].
  simpl. exact Hd.
Qed.

Lemma append_inj_l (p u v : string) : p ++ u = p ++ v -> u = v.
Proof.
  induction p as [|c p IH]; simpl; [auto|]. intros [= H]. now apply IH.
Qed.

(** Two runs of digits, each followed by an underscore, that begin equal
    texts are the same run. *)
Lemma digits_before_underscore (a b x y : string) :
  allChars isDigit a = true -> allChars isDigit b = true ->
  a ++ "_" ++ x = b ++ "_" ++ y -> a = b.
Proof.
  revert b; induction a as [|c a IH]; intros [|d b] Ha Hb H; simpl in *.
  - reflexivity.
  - injection H as Hc _. rewrite <- Hc in Hb. discriminate.
  - injection H as Hc _. rewrite Hc in Ha. discriminate.
  - injection H as -> H.
    apply andb_true_iff in Ha, Hb. f_equal. apply (IH b); tauto.
Qed.

(** X25: scenes with different numbers are downloaded under different file
    names, whatever their names: the step number written into the name, on
    two digits at least, tells them apart. *)
Theorem downloadName_distinct (a b : App.StoryboardAngle) :
  App.board_id a <> App.board_id b -> App.downloadName a <> App.downloadName b.
Proof.
  intros Hid Hname. apply Hid. unfold App.downloadName in Hname.
  apply append_inj_l in Hname.
  apply padded_number_inj.
  exact (@digits_before_underscore _ _ _ _ (padStart_digits _) (padStart_digits _) Hname).
Qed.

Lemma downloadName_distinct_witness :
  App.downloadName
    {| App.board_id := 0; App.board_name := "Wide shot"; App.board_description := "";
       App.board_prompt := "p"; App.board_promptKo := "k";
       App.board_imageUrl := Some "data:image/png;base64,UE5H";
       App.board_status := App.StatusCompleted |}
  <> App.downloadName
    {| App.board_id := 10; App.board_name := "Wide shot"; App.board_description := "";
       App.board_prompt := "p"; App.board_promptKo := "k";
       App.board_imageUrl := Some "data:image/png;base64,UE5H";
       App.board_status := App.StatusCompleted |}.
Proof.
  apply downloadName_distinct. simpl. discriminate.
Defined.

Lemma scheduleDownloads_shape (index : nat) (available : list App.StoryboardAngle) :
  Forall (fun a => hasImage a = true) available ->
  map fst (App.scheduleDownloads index available) =
    map (fun k => k * 200) (seq index (List.length available)) /\
  map snd (App.scheduleDownloads index available) =
    map (fun a => Some {| App.download_href := spliced (App.board_imageUrl a);
                          App.download_name := App.downloadName a |}) available.
Proof.
  intros Hall. revert index.
  induction Hall as [|a rest Ha _ IH]; intros index; [now split|].
  destruct (IH (Datatypes.S index)) as [Hdelay Hloads].
  cbn [App.scheduleDownloads map seq List.length fst snd].
  rewrite Hdelay, Hloads. unfold App.handleDownloadImage.
  unfold hasImage in Ha. now rewrite Ha.
Qed.

(** X26: Download All.  With no scene that has an image it sets no timer
    and gives the message that there is nothing to download.  Otherwise it
    sets one timer per scene that has an image, in the order of the board,
    the k-th after 200 k milliseconds, and each timer starts the download of
    its scene's image under its scene's file name. *)
Theorem handleDownloadAllImages_schedule (board : list App.StoryboardAngle) :
  let available := filter hasImage board in
  (available = [] ->
   App.handleDownloadAllImages board = inl "다운로드할 이미지가 없습니다.") /\
  (available <> [] ->
   exists timers,
     App.handleDownloadAllImages board = inr timers /\
     map fst timers = map (fun k => k * 200) (seq 0 (List.length available)) /\
     map snd timers =
       map (fun a => Some {| App.download_href := spliced (App.board_imageUrl a);
                             App.download_name := App.downloadName a |}) available).
Proof.
  intros available. unfold App.handleDownloadAllImages.
  change (filter (fun a => Js.truthy (App.board_imageUrl a)) board) with available.
  split.
  - now intros ->.
  - intros Hne. exists (App.scheduleDownloads 0 available).
    split; [destruct available; [contradiction | reflexivity]|].
    apply scheduleDownloads_shape. apply Forall_forall.
    intros a Hin. now apply filter_In in Hin.
Qed.

Lemma handleDownloadAllImages_schedule_witness :
  App.handleDownloadAllImages
    [{| App.board_id := 0; App.board_name := "Wide shot"; App.board_description := "";
        App.board_prompt := "p"; App.board_promptKo := "k";
        App.board_imageUrl := None; App.board_status := App.StatusPending |}]
  = inl "다운로드할 이미지가 없습니다.".
Proof.
  apply (handleDownloadAllImages_schedule
           [{| App.board_id := 0; App.board_name := "Wide shot";
               App.board_description := ""; App.board_prompt := "p";
               App.board_promptKo := "k"; App.board_imageUrl := None;
               App.board_status := App.StatusPending |}]).
  reflexivity.
Defined.

(** ** Safe file names *)

Lemma safeChar_inClass_notUpper (c : ascii) :
  safeChar c = App.inClass c && notUpper c.
Proof. destruct c as [[] [] [] [] [] [] [] []]; reflexivity. Qed.

Lemma lowerChar_notUpper (c : ascii) : notUpper (Js.lowerChar c) = true.
Proof. destruct c as [[] [] [] [] [] [] [] []]; reflexivity. Qed.

(** A safe character is its own lower case, is in the class, and begins
    none of the two characters that [lowerCaseText] maps apart. *)
Lemma safeChar_plain (c : ascii) :
  safeChar c = true ->
  Js.lowerChar c = c /\ App.inClass c = true /\
  Ascii.eqb c "196" = false /\ Ascii.eqb c "226" = false.
Proof.
  destruct c as [[] [] [] [] [] [] [] []]; intros H; try discriminate H;
    repeat split; reflexivity.
Qed.

Lemma lowerCaseText_one (c1 : ascii) :
  App.lowerCaseText (String c1 "") = String (Js.lowerChar c1) "".
Proof. reflexivity. Qed.

Lemma lowerCaseText_more (c1 c2 : ascii) (rest2 : string) :
  App.lowerCaseText (String c1 (String c2 rest2)) =
  if Ascii.eqb c1 "196" && Ascii.eqb c2 "176"
  then String "i" (String "204" (String "135" (App.lowerCaseText rest2)))
  else match rest2 with
       | EmptyString => String (Js.lowerChar c1) (App.lowerCaseText (String c2 rest2))
       | String c3 rest3 =>
           if Ascii.eqb c1 "226" && Ascii.eqb c2 "132" && Ascii.eqb c3 "170"
           then String "k" (App.lowerCaseText rest3)
           else String (Js.lowerChar c1) (App.lowerCaseText (String c2 rest2))
       end.
Proof. destruct rest2; reflexivity. Qed.

Lemma lowerCaseText_notUpper_upto (n : nat) (s : string) :
  String.length s <= n -> allChars notUpper (App.lowerCaseText s) = true.
Proof.
  revert s; induction n as [|n IH]; intros s Hlen.
  - destruct s; [reflexivity | simpl in Hlen; lia].
  - destruct s as [|c1 [|c2 rest2]]; [reflexivity | |].
    + rewrite lowerCaseText_one. simpl. now rewrite lowerChar_notUpper.
    + rewrite lowerCaseText_more. simpl in Hlen.
      destruct (Ascii.eqb c1 "196" && Ascii.eqb c2 "176").
      * cbn [allChars]. rewrite IH by lia. reflexivity.
      * destruct rest2 as [|c3 rest3].
        -- cbn [allChars]. rewrite lowerChar_notUpper, IH by (simpl; lia). reflexivity.
        -- destruct (Ascii.eqb c1 "226" && Ascii.eqb c2 "132" && Ascii.eqb c3 "170").
           ++ cbn [allChars]. simpl in Hlen. rewrite IH by lia. reflexivity.
           ++ cbn [allChars]. rewrite lowerChar_notUpper, IH by (simpl in *; lia).
              reflexivity.
Qed.

Lemma lowerCaseText_safe_upto (n : nat) (s : string) :
  String.length s <= n -> allChars safeChar s = true -> App.lowerCaseText s = s.
Proof.
  revert s; induction n as [|n IH]; intros s Hlen Hsafe.
  - destruct s; [reflexivity | simpl in Hlen; lia].
  - destruct s as [|c1 [|c2 rest2]]; [reflexivity | |].
    + rewrite lowerCaseText_one. simpl in Hsafe. rewrite andb_true_r in Hsafe.
      now rewrite (proj1 (safeChar_plain c1 Hsafe)).
    + rewrite lowerCaseText_more. simpl in Hlen.
      cbn [allChars] in Hsafe. apply andb_true_iff in Hsafe. destruct Hsafe as [H1 H2].
      destruct (safeChar_plain c1 H1) as [Hlow [_ [H196 H226]]].
      assert (Hrest : App.lowerCaseText (String c2 rest2) = String c2 rest2)
        by (apply IH; [simpl; lia | exact H2]).
      rewrite H196, H226. cbn [andb]. rewrite Hlow, Hrest.
      now destruct rest2.
Qed.

Lemma replaceRuns_safe (inRun : bool) (s : string) :
  allChars notUpper s = true -> allChars safeChar (App.replaceRuns inRun s) = true.
Proof.
  revert inRun; induction s as [|c s IH]; intros inRun H; [reflexivity|].
  cbn [allChars] in H. apply andb_true_iff in H. destruct H as [Hc Hs].
  cbn [App.replaceRuns]. destruct (App.inClass c) eqn:Hin.
  - cbn [allChars]. rewrite safeChar_inClass_notUpper, Hin, Hc. now apply IH.
  - destruct inRun; [now apply IH|]. cbn [allChars]. now rewrite IH.
Qed.

Lemma replaceRuns_inClass (s : string) :
  allChars App.inClass s = true -> App.replaceRuns false s = s.
Proof.
  induction s as [|c s IH]; [reflexivity|]. cbn [allChars App.replaceRuns].
  intros H. apply andb_true_iff in H. destruct H as [Hc Hs]. now rewrite Hc, IH.
Qed.

Section Kept.

Variable p : ascii -> bool.

Lemma dropLeadingUnderscores_allChars (s : string) :
  allChars p s = true -> allChars p (App.dropLeadingUnderscores s) = true.
Proof.
  induction s as [|c s IH]; [reflexivity|]. intros H. cbn [App.dropLeadingUnderscores].
  destruct (Ascii.eqb c "_"); [|exact H].
  cbn [allChars] in H. apply andb_true_iff in H. now apply IH.
Qed.

Lemma dropTrailingUnderscores_allChars (s : string) :
  allChars p s = true -> allChars p (App.dropTrailingUnderscores s) = true.
Proof.
  induction s as [|c s IH]; [reflexivity|]. intros H.
  cbn [allChars] in H. apply andb_true_iff in H. destruct H as [Hc Hs].
  cbn [App.dropTrailingUnderscores].
  destruct (App.dropTrailingUnderscores s) as [|d kept] eqn:Hkept.
  - destruct (Ascii.eqb c "_"); [reflexivity | simpl; now rewrite Hc].
  - cbn [allChars]. cbn [allChars] in IH. now rewrite Hc, IH.
Qed.

Lemma sliceFromStart_allChars (count : nat) (s : string) :
  allChars p s = true -> allChars p (sliceFromStart count s) = true.
Proof.
  revert s; induction count as [|count IH]; intros [|c s] H; try reflexivity.
  cbn [allChars] in H. apply andb_true_iff in H. destruct H as [Hc Hs].
  cbn [sliceFromStart allChars]. now rewrite Hc, IH.
Qed.

End Kept.

Lemma sliceFromStart_length (count : nat) (s : string) :
  String.length (sliceFromStart count s) <= count.
Proof.
  revert s; induction count as [|count IH]; intros [|c s]; simpl; try lia.
  specialize (IH s). lia.
Qed.

Lemma sliceFromStart_all (count : nat) (s : string) :
  String.length s <= count -> sliceFromStart count s = s.
Proof.
  revert s; induction count as [|count IH]; intros [|c s] H; simpl in *;
    try reflexivity; try lia.
  now rewrite IH by lia.
Qed.

Lemma dropLeadingUnderscores_start (s : string) :
  Js.startsWith "_" (App.dropLeadingUnderscores s) = false.
Proof.
  induction s as [|c s IH]; [reflexivity|]. cbn [App.dropLeadingUnderscores].
  destruct (Ascii.eqb c "_") eqn:Hc; [exact IH|].
  cbn [Js.startsWith]. now rewrite Ascii.eqb_sym, Hc.
Qed.

Lemma dropLeadingUnderscores_none (s : string) :
  Js.startsWith "_" s = false -> App.dropLeadingUnderscores s = s.
Proof.
  destruct s as [|c s]; [reflexivity|]. cbn [Js.startsWith App.dropLeadingUnderscores].
  rewrite andb_true_r, Ascii.eqb_sym. now intros ->.
Qed.

Lemma dropTrailingUnderscores_start (s : string) :
  Js.startsWith "_" s = false ->
  Js.startsWith "_" (App.dropTrailingUnderscores s) = false.
Proof.
  destruct s as [|c s]; [reflexivity|]. cbn [Js.startsWith App.dropTrailingUnderscores].
  rewrite andb_true_r. intros Hc.
  destruct (App.dropTrailingUnderscores s).
  - rewrite Ascii.eqb_sym in Hc. rewrite Hc. cbn [Js.startsWith].
    now rewrite Ascii.eqb_sym, Hc.
  - cbn [Js.startsWith]. now rewrite Hc.
Qed.

Lemma dropTrailingUnderscores_none (s : string) :
  lastChar s <> Some "_"%char -> App.dropTrailingUnderscores s = s.
Proof.
  induction s as [|c s IH]; [reflexivity|]. intros Hlast.
  cbn [App.dropTrailingUnderscores]. destruct s as [|d s].
  - cbn [App.dropTrailingUnderscores].
    destruct (Ascii.eqb_spec c "_") as [-> | _]; [now contradiction Hlast | reflexivity].
  - rewrite IH by exact Hlast. reflexivity.
Qed.

Lemma sliceFromStart_start (count : nat) (s : string) :
  Js.startsWith "_" s = false -> Js.startsWith "_" (sliceFromStart count s) = false.
Proof.
  destruct count as [|count], s as [|c s]; try reflexivity.
  cbn [Js.startsWith sliceFromStart]. rewrite !andb_true_r. auto.
Qed.

(** X27: a file name made by [toSafeFilename] has one character at least and
    forty at most, all of them lower-case letters, digits, hyphens or
    underscores, and does not begin with an underscore, whatever the name of
    the scene. *)
Theorem toSafeFilename_safe (value : string) :
  allChars safeChar (App.toSafeFilename value) = true /\
  1 <= String.length (App.toSafeFilename value) <= 40 /\
  Js.startsWith "_" (App.toSafeFilename value) = false.
Proof.
  unfold App.toSafeFilename, App.trimUnderscores.
  set (cleaned := sliceFromStart 40 _).
  assert (Hsafe : allChars safeChar cleaned = true).
  { apply sliceFromStart_allChars, dropTrailingUnderscores_allChars,
      dropLeadingUnderscores_allChars, replaceRuns_safe.
    apply lowerCaseText_notUpper_upto with (n := String.length value).
    apply Nat.le_refl. }
  assert (Hlen : String.length cleaned <= 40) by apply sliceFromStart_length.
  assert (Hstart : Js.startsWith "_" cleaned = false).
  { apply sliceFromStart_start, dropTrailingUnderscores_start,
      dropLeadingUnderscores_start. }
  destruct (String.eqb_spec cleaned "") as [_ | Hne].
  - repeat split; simpl; lia.
  - repeat split; try assumption.
    destruct cleaned; [contradiction | simpl; lia].
Qed.

(** X28: [toSafeFilename] keeps a name that is safe already: one to forty
    lower-case letters, digits, hyphens or underscores, with no underscore
    at either end. *)
Theorem toSafeFilename_keeps_safe_names (value : string) :
  allChars safeChar value = true ->
  value <> "" ->
  String.length value <= 40 ->
  Js.startsWith "_" value = false ->
  lastChar value <> Some "_"%char ->
  App.toSafeFilename value = value.
Proof.
  intros Hsafe Hne Hlen Hstart Hlast.
  unfold App.toSafeFilename, App.trimUnderscores.
  rewrite (@lowerCaseText_safe_upto (String.length value) value (Nat.le_refl _) Hsafe).
  rewrite replaceRuns_inClass.
  - rewrite dropLeadingUnderscores_none by exact Hstart.
    rewrite dropTrailingUnderscores_none by exact Hlast.
    rewrite sliceFromStart_all by exact Hlen.
    apply String.eqb_neq in Hne. now rewrite Hne.
  - clear -Hsafe. induction value as [|c s IH]; [reflexivity|].
    cbn [allChars] in *. apply andb_true_iff in Hsafe. destruct Hsafe as [Hc Hs].
    now rewrite (proj1 (proj2 (safeChar_plain c Hc))), IH.
Qed.

Lemma toSafeFilename_keeps_safe_names_witness :
  App.toSafeFilename "wide-shot_01" = "wide-shot_01".
Proof.
  apply toSafeFilename_keeps_safe_names.
  - reflexivity.
  - discriminate.
  - simpl. lia.
  - reflexivity.
  - discriminate.
Defined.
